(** * APIMessage: normalisation and formatting of outgoing messages

    A shallow embedding of [src/structures/APIMessage.js] (discord.js).
    JavaScript values are a small tagged universe; objects are finite maps
    from property names to values; exceptions are an error monad; the one
    asynchronous join ([Promise.all]) is a slot array filled along a
    completion schedule. *)

From Stdlib Require Import ZArith Ascii.
From stdpp Require Import base option list strings gmap pretty.

Open Scope Z_scope.

(* ===================================================================== *)
(** * JavaScript values and the primitives the class relies on *)
(* ===================================================================== *)

Module JS.

(** The classes of the library that values and targets are instances of.
    [Buffer] stands for the platform's binary buffer class
    ([browser ? ArrayBuffer : Buffer]). *)
Inductive Class :=
  | Plain | MessageEmbed | MessageAttachment | Buffer
  | User | GuildMember
  | Webhook | WebhookClient | TextChannel | DMChannel | GroupDMChannel.

Global Instance Class_eq_dec : EqDecision Class.
Proof. solve_decision. Defined.

(** Values.  A number is an integer-valued double in the exactly
    representable range; [NaN] only arises from [parseInt] and is modelled
    there.  A string is the bytes of its UTF-8 form.  A function is opaque: only
    [typeof] looks at it; it carries its source text for [String(f)]. *)
#[warnings="-register-all"]
Inductive Value :=
  | VUndefined
  | VNull
  | VBool (b : bool)
  | VNum (n : Z)
  | VStr (s : string)
  | VFunc (src : string)
  | VArr (items : list Value)
  | VObj (cls : Class) (props : gmap string Value).

(** A plain object's own properties. *)
Abbreviation Obj := (gmap string Value).

Global Instance Value_inhabited : Inhabited Value := populate VUndefined.

(** Errors that can surface.  [RangeError_MESSAGE_NONCE_TYPE] is the one
    thrown in this file; [TypeError] is the engine's (property of
    [undefined]/[null], spread of a non-iterable); the remaining ones are
    raised by collaborators and named as the specification names them. *)
Inductive Error :=
  | RangeError_MESSAGE_NONCE_TYPE
  | TypeError
  | InvalidMentionTarget
  | MessageTooLong
  | FileResolutionError.

Global Instance Error_eq_dec : EqDecision Error.
Proof. solve_decision. Defined.

(** The exception monad. *)
Inductive Result (A : Type) :=
  | Ok (a : A)
  | Err (e : Error).
Global Arguments Ok {A} a.
Global Arguments Err {A} e.

Global Instance Result_ret : MRet Result := λ A, Ok.

Global Instance Result_bind : MBind Result := λ A B k m,
  match m with
  | Ok a => k a
  | Err e => Err e
  end.

Global Instance Result_fmap : FMap Result := λ A B f m,
  match m with
  | Ok a => Ok (f a)
  | Err e => Err e
  end.

(** One step of a computation in the monad: a bind or a map over a known
    result. *)
Ltac result_step := cbn [mbind Result_bind fmap Result_fmap].

(** [ToBoolean]. *)
Definition truthy (v : Value) : bool :=
  match v with
  | VUndefined | VNull => false
  | VBool b => b
  | VNum n => negb (n =? 0)
  | VStr s => negb (bool_decide (s = ""))
  | VFunc _ | VArr _ | VObj _ _ => true
  end.

(** [a || b]. *)
Definition or_else (a b : Value) : Value := if truthy a then a else b.

(** [typeof v]. *)
Definition typeof (v : Value) : string :=
  match v with
  | VUndefined => "undefined"
  | VNull => "object"
  | VBool _ => "boolean"
  | VNum _ => "number"
  | VStr _ => "string"
  | VFunc _ => "function"
  | VArr _ | VObj _ _ => "object"
  end.

Definition is_undefined (v : Value) : bool :=
  match v with VUndefined => true | _ => false end.

(** [v == null]. *)
Definition is_nullish (v : Value) : bool :=
  match v with VUndefined | VNull => true | _ => false end.

(** [v === null]. *)
Definition is_null (v : Value) : bool :=
  match v with VNull => true | _ => false end.

(** [v !== false]. *)
Definition is_not_false (v : Value) : bool :=
  match v with VBool false => false | _ => true end.

(** [v instanceof Array]. *)
Definition is_array (v : Value) : bool :=
  match v with VArr _ => true | _ => false end.

(** [v instanceof C] for a class [C] of the library. *)
Definition instanceof (v : Value) (c : Class) : bool :=
  match v with
  | VObj c' _ => bool_decide (c' = c)
  | _ => false
  end.

(** Reading a property of a plain object: absent reads as [undefined]. *)
Definition get (o : Obj) (k : string) : Value := default VUndefined (o !! k).

(** [v.k] for the property names this file reads ([files], [nickname],
    [pipe], [attachment], [name], [path]): none of them is defined on
    primitives or arrays, and reading from [undefined]/[null] throws. *)
Definition get_prop (v : Value) (k : string) : Result Value :=
  match v with
  | VUndefined | VNull => Err TypeError
  | VObj _ props => Ok (get props k)
  | _ => Ok VUndefined
  end.

(** ** Strings *)

Definition nl : string := String "010" "".

(** U+200B ZERO WIDTH SPACE, in UTF-8. *)
Definition zwsp : string := String "226" (String "128" (String "139" "")).

(** Does [s] begin with [p]? *)
Fixpoint starts_with (p s : string) : bool :=
  match p, s with
  | "", _ => true
  | String a p', String b s' => bool_decide (a = b) && starts_with p' s'
  | String _ _, "" => false
  end.

(** [p] occurs somewhere in [s]. *)
Definition occurs (p s : string) : Prop := ∃ a b, s = a +:+ p +:+ b.

(** [String(v)] and the coercion a template literal applies.  An object is
    printed by the default [Object.prototype.toString]. *)
Fixpoint to_string (v : Value) : string :=
  match v with
  | VUndefined => "undefined"
  | VNull => "null"
  | VBool b => if b then "true" else "false"
  | VNum n => pretty n
  | VStr s => s
  | VFunc src => src
  | VArr items =>
      String.concat ","
        (map (λ x, match x with
                   | VUndefined | VNull => ""
                   | _ => to_string x
                   end) items)
  | VObj _ _ => "[object Object]"
  end.

(** ** [parseInt] with the radix left out *)

(** Leading white space, as [parseInt] strips it: the ASCII controls and
    space, and the UTF-8 forms of U+00A0, U+1680, U+2000..U+200A, U+2028,
    U+2029, U+202F, U+205F, U+3000 and U+FEFF. *)
Fixpoint trim_start (s : string) : string :=
  match s with
  | String c r =>
      if Ascii.is_space c then trim_start r
      else match c, r with
           | "194"%char, String "160" r' => trim_start r'
           | "225"%char, String "154" (String "128" r') => trim_start r'
           | "226"%char, String "128" (String d r') =>
               if bool_decide (128 ≤ Z.of_N (N_of_ascii d) ≤ 138)
                  || bool_decide (d = "168"%char) || bool_decide (d = "169"%char)
                  || bool_decide (d = "175"%char)
               then trim_start r' else s
           | "226"%char, String "129" (String "159" r') => trim_start r'
           | "227"%char, String "128" (String "128" r') => trim_start r'
           | "239"%char, String "187" (String "191" r') => trim_start r'
           | _, _ => s
           end
  | "" => ""
  end.

(** The value of a digit in the given radix, if it is one. *)
Definition digit_value (radix : Z) (c : ascii) : option Z :=
  let n := Z.of_N (N_of_ascii c) in
  let d :=
    if bool_decide (48 ≤ n ≤ 57) then Some (n - 48)
    else if bool_decide (97 ≤ n ≤ 122) then Some (n - 87)
    else if bool_decide (65 ≤ n ≤ 90) then Some (n - 55)
    else None in
  match d with
  | Some k => if bool_decide (k < radix) then Some k else None
  | None => None
  end.

(** The longest run of digits at the front of [s], read left to right;
    [None] when [s] does not begin with a digit. *)
Fixpoint parse_digits (radix : Z) (acc : option Z) (s : string) : option Z :=
  match s with
  | String c r =>
      match digit_value radix c with
      | Some d => parse_digits radix (Some (default 0 acc * radix + d)) r
      | None => acc
      end
  | "" => acc
  end.

(** [parseInt(s)]: [None] is [NaN].  The result is the integer the
    digits denote; the rounding of a double beyond 2^53 is left out. *)
Definition parseInt_string (s : string) : option Z :=
  let s := trim_start s in
  let '(sign, s) :=
    match s with
    | String "-" r => (-1, r)
    | String "+" r => (1, r)
    | _ => (1, s)
    end in
  let '(radix, s) :=
    match s with
    | String "0" (String "x" r) | String "0" (String "X" r) => (16, r)
    | _ => (10, s)
    end in
  (λ n, sign * n) <$> parse_digits radix None s.

Definition parseInt (v : Value) : option Z := parseInt_string (to_string v).

(** ** Objects *)

(** The own enumerable properties [Object.assign] copies from a source:
    those of an object, the indices of an array or of a string. *)
Definition index_props (items : list Value) : Obj :=
  list_to_map (imap (λ i v, (pretty i, v)) items).

Definition own_props (v : Value) : Obj :=
  match v with
  | VObj _ props => props
  | VArr items => index_props items
  | VStr s => index_props ((λ c, VStr (String c "")) <$> String.list_ascii_of_string s)
  | _ => ∅
  end.

(** [Object.assign(target, ...sources)]: later sources win. *)
Definition Object_assign (target : Obj) (sources : list Value) : Obj :=
  foldl (λ acc src, own_props src ∪ acc) target sources.

(** [...v] in an argument list. *)
Definition spread (v : Value) : Result (list Value) :=
  match v with
  | VArr items => Ok items
  | VStr s => Ok ((λ c, VStr (String c "")) <$> String.list_ascii_of_string s)
  | _ => Err TypeError
  end.

(** [xs[0]]. *)
Definition first (xs : list Value) : Value := default VUndefined (head xs).

(** [s.replace(/@(everyone|here)/g, '@\u200b$1')].  A match begins at an
    [@]; the zero-width space is emitted right after it and the scan goes
    on through the matched word, which holds no [@] and is copied as is
    ([Escaping.escape_mentions_everyone] and [escape_mentions_here] give
    the replacement at a match).  The pattern is ASCII, so the matches in
    the UTF-8 bytes are those in the UTF-16 units. *)
Fixpoint escape_mentions (s : string) : string :=
  match s with
  | "" => ""
  | String c r =>
      if bool_decide (c = "@"%char) && (starts_with "everyone" r || starts_with "here" r)
      then String c (zwsp +:+ escape_mentions r)
      else String c (escape_mentions r)
  end.

(** The strings without an [@]. *)
Fixpoint at_free (p : string) : bool :=
  match p with
  | "" => true
  | String c p => negb (bool_decide (c = "@"%char)) && at_free p
  end.

End JS.

(* ===================================================================== *)
(** * The class [APIMessage] *)
(* ===================================================================== *)

Module APIMessage.
Import JS.

(** ** Collaborators

    The modules [APIMessage.js] requires and calls into.  Their code is
    not part of this file; every definition below is parametric in them. *)
Class Collaborators := {
  (** [Util.resolveString]: coerces the content to a string. *)
  resolveString : Value → string;
  (** [Util.escapeMarkdown(text, onlyCodeBlock)]. *)
  escapeMarkdown : string → bool → string;
  (** [Util.splitMessage(text, options)]. *)
  splitMessage : string → Obj → Result (list string);
  (** [Util.basename(path)]. *)
  basename : Value → Result string;
  (** [new MessageEmbed(e)._apiTransform()]: the wire shape of an embed. *)
  apiTransform : Value → Value;
  (** [DataResolver.resolveFile(resource)], once it has settled. *)
  DataResolver_resolveFile : Value → Result Value;
}.

(** What a target exposes through [target.client]. *)
Record Client := {
  (** [client.options.disableEveryone] *)
  options_disableEveryone : Value;
  (** [client.users.resolveID(user)] *)
  users_resolveID : Value → Result Value;
}.

(** A [MessageTarget], with the attributes this class reads. *)
Record Target := {
  target_class : Class;
  target_type : Value;
  target_name : Value;
  target_client : Client;
}.

(** What [makeContent] returns: a string, or the chunks of a split. *)
Inductive Content :=
  | Single (s : string)
  | Chunks (chunks : list string).

(** The object [resolveData] returns. *)
Record Payload := {
  content : Content;
  tts : bool;
  nonce : Value;
  embed : Value;
  embeds : list Value;
  username : Value;
  avatar_url : Value;
}.

(** The object [resolveFile] returns. *)
Record FileDescriptor := {
  attachment : Value;
  name : Value;
  file : Value;
}.

(** A promise, looked at once nothing more will settle. *)
Inductive Promise (A : Type) :=
  | Fulfilled (a : A)
  | Rejected (e : Error)
  | Pending.
Global Arguments Fulfilled {A} a.
Global Arguments Rejected {A} e.
Global Arguments Pending {A}.

(** [get isWebhook()] *)
Definition isWebhook (target : Target) : bool :=
  bool_decide (target_class target = Webhook)
  || bool_decide (target_class target = WebhookClient).

(** [get isUser()] *)
Definition isUser (target : Target) : bool :=
  bool_decide (target_class target = User)
  || bool_decide (target_class target = GuildMember).

(** [static partitionMessageAdditions(items)] *)
Definition partitionMessageAdditions (items : list Value) : list Value * list Value :=
  foldl (λ '(embeds, files) item,
           if instanceof item MessageEmbed then (embeds ++ [item], files)
           else if instanceof item MessageAttachment then (embeds, files ++ [item])
           else (embeds, files))
        ([], []) items.

(** [static transformOptions(content, options, extra = {}, isWebhook = false)] *)
Definition transformOptions (content options extra : Value) (isWebhook : bool) : Obj :=
  let extra := if is_undefined extra then VObj Plain ∅ else extra in
  let '(content, options) :=
    if negb (truthy options) && bool_decide (typeof content = "object")
       && negb (is_array content)
    then (VStr "", content) else (content, options) in
  let options := if truthy options then options else VObj Plain ∅ in
  if instanceof options MessageEmbed then
    Object_assign
      (if isWebhook then {[ "content" := content; "embeds" := VArr [options] ]}
       else {[ "content" := content; "embed" := options ]})
      [extra]
  else if instanceof options MessageAttachment then
    Object_assign {[ "content" := content; "files" := VArr [options] ]} [extra]
  else
    let generic := Object_assign {[ "content" := content ]} [options; extra] in
    match options, content with
    | VArr items, _ =>
        let '(embeds, files) := partitionMessageAdditions items in
        Object_assign
          (if isWebhook
           then {[ "content" := content; "embeds" := VArr embeds; "files" := VArr files ]}
           else {[ "content" := content; "embed" := first embeds; "files" := VArr files ]})
          [extra]
    | _, VArr items =>
        let '(embeds, files) := partitionMessageAdditions items in
        if negb (bool_decide (length embeds = 0%nat))
           || negb (bool_decide (length files = 0%nat))
        then
          Object_assign
            (if isWebhook then {[ "embeds" := VArr embeds; "files" := VArr files ]}
             else {[ "embed" := first embeds; "files" := VArr files ]})
            [extra]
        else generic
    | _, _ => generic
    end.

Section Instance_methods.
Context `{collab : Collaborators}.

(** [isSplit] and [isCode] of [makeContent]: the option is neither
    [undefined] nor [false]. *)
Definition isSplit (options : Obj) : bool :=
  negb (is_undefined (get options "split")) && is_not_false (get options "split").

Definition isCode (options : Obj) : bool :=
  negb (is_undefined (get options "code")) && is_not_false (get options "code").

(** [codeName] of [makeContent]. *)
Definition codeName (options : Obj) : string :=
  match get options "code" with
  | VStr s => s
  | _ => ""
  end.

(** The guard of the mention prefix:
    [this.options.reply && !this.isUser && this.target.type !== 'dm']. *)
Definition mentions (target : Target) (options : Obj) : bool :=
  truthy (get options "reply") && negb (isUser target)
  && negb (match target_type target with
           | VStr s => bool_decide (s = "dm")
           | _ => false
           end).

(** The template of [mentionPart], for a resolved [id]. *)
Definition mention_of (reply id : Value) : string :=
  "<@" +:+
  (match reply with
   | VObj GuildMember props => if truthy (get props "nickname") then "!" else ""
   | _ => ""
   end) +:+ to_string id +:+ ">, ".

(** [disableEveryone] of [makeContent]: the option, else the client's. *)
Definition disableEveryone (target : Target) (options : Obj) : Value :=
  if is_undefined (get options "disableEveryone")
  then options_disableEveryone (target_client target)
  else get options "disableEveryone".

(** [makeContent()].  [splitOptions] is [undefined] when [isSplit] is
    false and is then never read; it is the empty object here. *)
Definition makeContent (target : Target) (options : Obj) : Result Content :=
  let content :=
    resolveString (if is_nullish (get options "content") then VStr ""
                   else get options "content") in
  let isSplit := isSplit options in
  let isCode := isCode options in
  let splitOptions : Obj :=
    if isSplit then Object_assign ∅ [get options "split"] else ∅ in
  '(mentionPart, splitOptions) ←
    (if mentions target options then
       id ← users_resolveID (target_client target) (get options "reply");
       let mentionPart := mention_of (get options "reply") id in
       Ok (mentionPart,
           if isSplit
           then <["prepend" :=
                    VStr (mentionPart +:+
                          to_string (or_else (get splitOptions "prepend") (VStr "")))]>
                  splitOptions
           else splitOptions)
     else Ok ("", splitOptions));
  if truthy (VStr content) || truthy (VStr mentionPart) then
    let '(content, splitOptions) :=
      if isCode then
        let codeName := codeName options in
        (mentionPart +:+ "```" +:+ codeName +:+ nl +:+
           escapeMarkdown content true +:+ nl +:+ "```",
         if isSplit then
           let splitOptions :=
             <["prepend" :=
                 VStr (to_string (or_else (get splitOptions "prepend") (VStr ""))
                       +:+ "```" +:+ codeName +:+ nl)]> splitOptions in
           <["append" :=
               VStr (nl +:+ "```" +:+
                     to_string (or_else (get splitOptions "append") (VStr "")))]>
             splitOptions
         else splitOptions)
      else if truthy (VStr mentionPart) then (mentionPart +:+ content, splitOptions)
      else (content, splitOptions) in
    let content :=
      if truthy (disableEveryone target options) then escape_mentions content
      else content in
    if isSplit then Chunks <$> splitMessage content splitOptions
    else Ok (Single content)
  else Ok (Single content).

(** *** The steps of [makeContent], named

    Used to state what [makeContent] computes; [Formatter.makeContent_eq]
    relates them to the definition above. *)

(** The content option as a string. *)
Definition content_of (options : Obj) : string :=
  resolveString (if is_nullish (get options "content") then VStr ""
                 else get options "content").

(** The mention prefix: empty when the guard fails. *)
Definition mention_part (target : Target) (options : Obj) : Result string :=
  if mentions target options
  then mention_of (get options "reply")
       <$> users_resolveID (target_client target) (get options "reply")
  else Ok "".

(** A body between a fence with the language of the code option. *)
Definition fenced (options : Obj) (body : string) : string :=
  "```" +:+ codeName options +:+ nl +:+ escapeMarkdown body true +:+ nl +:+ "```".

(** The escaping of mass mentions, when it is in force. *)
Definition escaped (target : Target) (options : Obj) (text : string) : string :=
  if truthy (disableEveryone target options) then escape_mentions text else text.

(** The copy of the split option and its prepend and append as strings. *)
Definition split_base (options : Obj) : Obj := Object_assign ∅ [get options "split"].

Definition prepend_base (options : Obj) : string :=
  to_string (or_else (get (split_base options) "prepend") (VStr "")).

Definition append_base (options : Obj) : string :=
  to_string (or_else (get (split_base options) "append") (VStr "")).

(** The configuration handed to the splitter. *)
Definition split_config (target : Target) (options : Obj) (mention : string) : Obj :=
  if isCode options then
    <["append" := VStr (nl +:+ "```" +:+ append_base options)]>
      (<["prepend" :=
           VStr ((mention +:+ prepend_base options) +:+ "```" +:+ codeName options +:+ nl)]>
         (split_base options))
  else if mentions target options then
    <["prepend" := VStr (mention +:+ prepend_base options)]> (split_base options)
  else split_base options.

(** [embedLikes], as both [resolveData] and [resolveFiles] build it. *)
Definition embedLikes (target : Target) (options : Obj) : Result (list Value) :=
  if isWebhook target then
    if truthy (get options "embeds") then spread (get options "embeds") else Ok []
  else if truthy (get options "embed") then Ok [get options "embed"]
  else Ok [].

(** [resolveData()] *)
Definition resolveData (target : Target) (options : Obj) : Result Payload :=
  content ← makeContent target options;
  let tts := truthy (get options "tts") in
  nonce ←
    (if negb (is_undefined (get options "nonce")) then
       match parseInt (get options "nonce") with
       | Some n =>
           if bool_decide (n < 0) then Err RangeError_MESSAGE_NONCE_TYPE
           else Ok (VNum n)
       | None => Err RangeError_MESSAGE_NONCE_TYPE
       end
     else Ok VUndefined);
  embedLikes ← embedLikes target options;
  let embeds := map apiTransform embedLikes in
  let '(username, avatarURL) :=
    if isWebhook target then
      (or_else (get options "username") (target_name target),
       if truthy (get options "avatarURL") then get options "avatarURL"
       else VUndefined)
    else (VUndefined, VUndefined) in
  Ok {| content := content;
        tts := tts;
        nonce := nonce;
        embed := if is_null (get options "embed") then VNull else first embeds;
        embeds := embeds;
        username := username;
        avatar_url := avatarURL |}.

(** [findName] of [resolveFile]. *)
Definition findName (thing : Value) : Result Value :=
  if bool_decide (typeof thing = "string") then VStr <$> basename thing
  else
    path ← get_prop thing "path";
    if truthy path then VStr <$> basename path
    else Ok (VStr "file.jpg").

(** [static async resolveFile(fileLike)]: the outcome of the promise. *)
Definition resolveFile (fileLike : Value) : Result FileDescriptor :=
  ownAttachment ←
    (if bool_decide (typeof fileLike = "string") then Ok true
     else if instanceof fileLike Buffer then Ok true
     else pipe ← get_prop fileLike "pipe";
          Ok (bool_decide (typeof pipe = "function")));
  '(attachment, name) ←
    (if ownAttachment : bool then
       name ← findName fileLike;
       Ok (fileLike, name)
     else
       attachment ← get_prop fileLike "attachment";
       name ← get_prop fileLike "name";
       name ← (if truthy name then Ok name else findName attachment);
       Ok (attachment, name));
  resource ← DataResolver_resolveFile attachment;
  Ok {| attachment := attachment; name := name; file := resource |}.

(** [Promise.all(promises)].  There is one slot per promise.  [schedule]
    lists the indices of the promises in the order in which they settle:
    one that fulfils writes its value into its own slot, the first one
    that rejects rejects the whole.  Once nothing more settles, the join
    is fulfilled with the slots, in the order of the input, if every slot
    was written, and is still pending otherwise. *)
Fixpoint settle {A} (outcomes : list (Result A)) (schedule : list nat)
    (slots : list (option A)) : Promise (list A) :=
  match schedule with
  | [] =>
      match mapM id slots with
      | Some values => Fulfilled values
      | None => Pending
      end
  | i :: schedule =>
      match outcomes !! i with
      | Some (Ok a) => settle outcomes schedule (<[i := Some a]> slots)
      | Some (Err e) => Rejected e
      | None => settle outcomes schedule slots
      end
  end.

Definition Promise_all {A} (schedule : list nat) (outcomes : list (Result A))
    : Promise (list A) :=
  settle outcomes schedule (replicate (length outcomes) None).

(** [fileLikes] of [resolveFiles]: the files option, then the files of
    each embed. *)
Definition fileLikes (target : Target) (options : Obj) : Result (list Value) :=
  embedLikes ← embedLikes target options;
  fileLikes ←
    (if truthy (get options "files") then spread (get options "files")
     else Ok []);
  foldl (λ acc embed,
           fileLikes ← acc;
           files ← get_prop embed "files";
           if truthy files then more ← spread files; Ok (fileLikes ++ more)
           else Ok fileLikes)
        (Ok fileLikes) embedLikes.

(** What a [files] property lists: the members of an array, nothing when
    the property is not set. *)
Definition lists (v : Value) (xs : list Value) : Prop :=
  v = VArr xs ∨ (truthy v = false ∧ xs = []).

(** [resolveFiles()]: building the list may throw; the promise returned
    joins the resolutions, which settle in the order of [schedule]. *)
Definition resolveFiles (schedule : list nat) (target : Target) (options : Obj)
    : Result (Promise (list FileDescriptor)) :=
  fileLikes ← fileLikes target options;
  Ok (Promise_all schedule (map resolveFile fileLikes)).

(** [static create(target, content, options, extra = {})]: the target and
    the options of the new instance. *)
Definition create (target : Target) (content options extra : Value) : Target * Obj :=
  (target, transformOptions content options extra (isWebhook target)).

End Instance_methods.

End APIMessage.

Import JS APIMessage.

(* ===================================================================== *)
(** * Collaborators and targets to run the class on *)
(* ===================================================================== *)

Module Models.

(** Modelled from the spec: [Util.resolveString] is not part of this file.
    Section 4.2, step 1: the content is coerced to a string. *)
Definition resolveString_spec (v : Value) : string := to_string v.

(** Modelled from the spec: [Util.escapeMarkdown] is not part of this
    file.  Section 4.2, step 3a: backtick sequences inside the body are
    escaped; here a zero-width space splits every run of three. *)
Fixpoint escapeMarkdown_spec (text : string) (onlyCodeBlock : bool) : string :=
  match text with
  | String "`" (String "`" (String "`" rest)) =>
      "`" +:+ zwsp +:+ "``" +:+ escapeMarkdown_spec rest onlyCodeBlock
  | String c rest => String c (escapeMarkdown_spec rest onlyCodeBlock)
  | "" => ""
  end.

(** A string option of a split configuration, empty when it is not set. *)
Definition configured (opts : Obj) (k : string) : string :=
  match get opts k with
  | VStr s => s
  | _ => ""
  end.

(** Modelled from the spec: [Util.splitMessage] is not part of this file.
    Section 4.2, step 5, and section 8: the text is divided into an ordered
    sequence of chunks, the configured prepend and append are applied to
    every chunk, and the chunks without them reconstruct the text. *)
Definition divides_and_wraps (split : string → Obj → Result (list string)) : Prop :=
  ∀ text opts chunks,
    split text opts = Ok chunks →
    ∃ bodies,
      chunks = (λ body, configured opts "prepend" +:+ body +:+ configured opts "append")
               <$> bodies
      ∧ String.concat "" bodies = text.

(** The character limit of a split configuration. *)
Definition maxLength (opts : Obj) : nat :=
  match get opts "maxLength" with
  | VNum n => Z.to_nat n
  | _ => 2000%nat
  end.

(** [text] cut into pieces of [width] characters. *)
Fixpoint pieces (fuel width : nat) (text : list ascii) : list (list ascii) :=
  match fuel, text with
  | S fuel, _ :: _ => take width text :: pieces fuel width (drop width text)
  | _, _ => []
  end.

(** Modelled from the spec: [Util.splitMessage] is not part of this file.
    Section 4.2, step 5, in the mode that may split inside a line: every
    chunk is the prepend, at most as much text as still fits under the
    limit, and the append; [MessageTooLong] when no text fits. *)
Definition splitMessage_spec (text : string) (opts : Obj) : Result (list string) :=
  let prepend := configured opts "prepend" in
  let append := configured opts "append" in
  let room := (maxLength opts - (String.length prepend + String.length append))%nat in
  if bool_decide (room = 0%nat) then Err MessageTooLong
  else
    Ok ((λ body, prepend +:+ String.string_of_list_ascii body +:+ append)
        <$> pieces (String.length text) room (String.list_ascii_of_string text)).

(** The part of [path] after its last slash. *)
Fixpoint after_last_slash (current path : string) : string :=
  match path with
  | "" => current
  | String "/" rest => after_last_slash rest rest
  | String _ rest => after_last_slash current rest
  end.

(** Modelled from the spec: [Util.basename] is not part of this file.
    Section 4.4: a display name is derived from a string path. *)
Definition basename_spec (path : Value) : Result string :=
  match path with
  | VStr s => Ok (after_last_slash s s)
  | _ => Err TypeError
  end.

(** Modelled from the spec: [MessageEmbed] is not part of this file.
    Section 6: the transform of a rich-content item yields a plain object. *)
Definition apiTransform_spec (e : Value) : Value := VObj Plain (own_props e).

(** Modelled from the spec: [DataResolver.resolveFile] is not part of this
    file.  Section 6: a path, a URL or a buffer is turned into a byte
    resource, or the resolution fails. *)
Definition DataResolver_resolveFile_spec (resource : Value) : Result Value :=
  match resource with
  | VStr s => Ok (VObj Buffer {[ "from" := VStr s ]})
  | VObj Buffer bytes => Ok (VObj Buffer bytes)
  | _ => Err FileResolutionError
  end.

(** The collaborators above, around a given splitter. *)
Definition with_splitter (split : string → Obj → Result (list string)) : Collaborators :=
  {| resolveString := resolveString_spec;
     escapeMarkdown := escapeMarkdown_spec;
     splitMessage := split;
     basename := basename_spec;
     apiTransform := apiTransform_spec;
     DataResolver_resolveFile := DataResolver_resolveFile_spec |}.

Definition spec_collaborators : Collaborators := with_splitter splitMessage_spec.

(** Modelled from the spec: [client.users.resolveID] is not part of this
    file.  Sections 4.2 (step 2), 6 and 7: a raw id is resolved from an id
    string or from an object carrying an id; a source that cannot be
    resolved fails with [InvalidMentionTarget]. *)
Definition resolveID_spec (user : Value) : Result Value :=
  match user with
  | VStr id => Ok (VStr id)
  | VObj _ props =>
      match props !! "id" with
      | Some (VStr id) => Ok (VStr id)
      | _ => Err InvalidMentionTarget
      end
  | _ => Err InvalidMentionTarget
  end.

Definition client (disableEveryone : bool) : Client :=
  {| options_disableEveryone := VBool disableEveryone;
     users_resolveID := resolveID_spec |}.

(** A guild text channel, a webhook and a direct-message channel. *)
Definition channel : Target :=
  {| target_class := TextChannel; target_type := VStr "text";
     target_name := VStr "general"; target_client := client false |}.

Definition hook : Target :=
  {| target_class := Webhook; target_type := VUndefined;
     target_name := VStr "relay"; target_client := client false |}.

Definition dm : Target :=
  {| target_class := DMChannel; target_type := VStr "dm";
     target_name := VUndefined; target_client := client false |}.

End Models.

Import Models.

(* ===================================================================== *)
(** * Normalisation of the arguments *)
(* ===================================================================== *)

Module Normalizer.

Lemma foldl_partition (items embeds files : list Value) :
  foldl (λ '(embeds, files) item,
           if instanceof item MessageEmbed then (embeds ++ [item], files)
           else if instanceof item MessageAttachment then (embeds, files ++ [item])
           else (embeds, files))
        (embeds, files) items
  = (embeds ++ filter (λ v, instanceof v MessageEmbed) items,
     files ++ filter (λ v, instanceof v MessageAttachment) items).
Proof.
  revert embeds files.
  induction items as [|item items IH]; intros embeds files; simpl.
  - by rewrite !app_nil_r.
  - destruct item as [| | | | | |?|cls props]; simpl; rewrite ?IH; try done.
    destruct cls; simpl; rewrite IH;
      rewrite ?filter_cons_True, ?filter_cons_False by (simpl; auto);
      by rewrite <- ?app_assoc.
Qed.

Lemma partition_filter (items : list Value) :
  partitionMessageAdditions items
  = (filter (λ v, instanceof v MessageEmbed) items,
     filter (λ v, instanceof v MessageAttachment) items).
Proof. unfold partitionMessageAdditions. by rewrite foldl_partition. Qed.

(** C7.  [partitionMessageAdditions] returns the embeds of its input in
    the order in which they occur and the attachments in the order in
    which they occur; whatever is neither an embed nor an attachment is in
    neither result.  For [RichA; AttachB; RichC; "junk"; AttachD] the
    result is ([RichA; RichC], [AttachB; AttachD]). *)
Theorem C7_partition_keeps_order_drops_others :
  (∀ items : list Value,
     partitionMessageAdditions items
     = (filter (λ v, instanceof v MessageEmbed) items,
        filter (λ v, instanceof v MessageAttachment) items))
  ∧ (∀ richA attachB richC attachD : Obj,
       partitionMessageAdditions
         [VObj MessageEmbed richA; VObj MessageAttachment attachB;
          VObj MessageEmbed richC; VStr "junk"; VObj MessageAttachment attachD]
       = ([VObj MessageEmbed richA; VObj MessageEmbed richC],
          [VObj MessageAttachment attachB; VObj MessageAttachment attachD])).
Proof.
  split.
  - apply partition_filter.
  - intros. reflexivity.
Qed.

(** The options [transformOptions] was given an array as content and no
    options: when the array holds no embed and no attachment, the result
    is the generic merge. *)
Lemma transformOptions_content_array (items : list Value) (options extra : Value)
    (isWebhook : bool) :
  truthy options = false →
  partitionMessageAdditions items = ([], []) →
  transformOptions (VArr items) options extra isWebhook
  = own_props extra ∪ {[ "content" := VArr items ]}.
Proof.
  intros Hf Hp. unfold transformOptions.
  rewrite Hf. simpl. rewrite !Hf. simpl. rewrite Hp. simpl.
  rewrite (left_id_L ∅ (∪)). by destruct extra.
Qed.

(** Passing a plain object alone: the result is that object, with an
    empty string as content if it has none. *)
Lemma transformOptions_object_alone (r : Obj) (isWebhook : bool) :
  transformOptions (VObj Plain r) VUndefined VUndefined isWebhook
  = r ∪ {[ "content" := VStr "" ]}.
Proof.
  unfold transformOptions. simpl.
  by rewrite (left_id_L ∅ (∪)).
Qed.

Lemma transformOptions_object_alone_content (r : Obj) (isWebhook : bool) :
  is_Some (r !! "content") →
  transformOptions (VObj Plain r) VUndefined VUndefined isWebhook = r.
Proof.
  intros [v Hv]. rewrite transformOptions_object_alone.
  apply map_eq. intros k. rewrite lookup_union.
  destruct (decide (k = "content")) as [->|Hk].
  - by rewrite Hv, lookup_singleton_eq.
  - rewrite lookup_singleton_ne by done. by destruct (r !! k).
Qed.

(** C6, as the code has it.  When the options are absent and the content
    is an array holding no embed and no attachment, the result is the
    generic merge of the content with [extra]: unless [extra] overrides
    it, the content field is the array itself, not an empty string. *)
Theorem C6_content_list_stays_the_content (items : list Value)
    (options extra : Value) (isWebhook : bool) :
  truthy options = false →
  partitionMessageAdditions items = ([], []) →
  transformOptions (VArr items) options extra isWebhook
  = own_props extra ∪ {[ "content" := VArr items ]}
  ∧ (own_props extra !! "content" = None →
     transformOptions (VArr items) options extra isWebhook !! "content"
     = Some (VArr items)).
Proof.
  intros Hf Hp. rewrite transformOptions_content_array by done.
  split; [done|]. intros He.
  by rewrite lookup_union, He, lookup_singleton_eq.
Qed.

Lemma C6_content_list_stays_the_content_witness :
  transformOptions (VArr [VStr "junk"; VNum 7]) VUndefined VUndefined false
  = own_props VUndefined ∪ {[ "content" := VArr [VStr "junk"; VNum 7] ]}
  ∧ (own_props VUndefined !! "content" = None →
     transformOptions (VArr [VStr "junk"; VNum 7]) VUndefined VUndefined false
       !! "content"
     = Some (VArr [VStr "junk"; VNum 7])).
Proof.
  apply (C6_content_list_stays_the_content
           [VStr "junk"; VNum 7] VUndefined VUndefined false);
    reflexivity.
Defined.

(** C6, as stated, fails: for the content [["junk"]] and for the empty
    array, both of which partition into two empty sequences, the content
    field of the result is the array, not the empty string. *)
Lemma C6_content_list_is_not_emptied :
  partitionMessageAdditions [VStr "junk"] = ([], [])
  ∧ transformOptions (VArr [VStr "junk"]) VUndefined VUndefined false !! "content"
    = Some (VArr [VStr "junk"])
  ∧ transformOptions (VArr [VStr "junk"]) VUndefined VUndefined false !! "content"
    ≠ Some (VStr "")
  ∧ partitionMessageAdditions [] = ([], [])
  ∧ transformOptions (VArr []) VUndefined VUndefined false !! "content"
    ≠ Some (VStr "").
Proof. repeat split; try reflexivity; vm_compute; discriminate. Qed.

(** C1 at the input on which the code departs from it: an array with one
    embed passed as the content.  The first pass has no content field;
    passing its result alone adds one, holding the empty string. *)
Theorem C1_second_pass_adds_content_field (embed : Obj) :
  let first_pass :=
    transformOptions (VArr [VObj MessageEmbed embed]) VUndefined VUndefined false in
  let second_pass :=
    transformOptions (VObj Plain first_pass) VUndefined VUndefined false in
  first_pass
  = {[ "embed" := VObj MessageEmbed embed; "files" := VArr [] ]}
  ∧ second_pass
    = {[ "content" := VStr ""; "embed" := VObj MessageEmbed embed; "files" := VArr [] ]}
  ∧ first_pass !! "content" = None
  ∧ second_pass !! "content" = Some (VStr "")
  ∧ second_pass ≠ first_pass.
Proof.
  intros first_pass second_pass.
  assert (first_pass
          = {[ "embed" := VObj MessageEmbed embed; "files" := VArr [] ]}) as H1.
  { unfold first_pass, transformOptions. simpl.
    by rewrite (left_id_L ∅ (∪)). }
  assert (second_pass
          = {[ "content" := VStr ""; "embed" := VObj MessageEmbed embed;
               "files" := VArr [] ]}) as H2.
  { unfold second_pass. rewrite transformOptions_object_alone, H1.
    apply map_eq. intros k. rewrite lookup_union.
    destruct (decide (k = "content")) as [->|Hk]; [done|].
    rewrite lookup_singleton_ne by done.
    rewrite (lookup_insert_ne _ "content") by done.
    by destruct (_ !! k). }
  split; [done|]. split; [done|].
  rewrite H2, H1. split; [done|]. split; [done|].
  intros Heq. by apply (f_equal (.!! "content")) in Heq.
Qed.

(** Passing the result of [transformOptions] alone: the second pass is
    the first one, with an empty string as content if the first has no
    content field.  The first pass has a content field in every case but
    one: an array with an embed or an attachment given as the content,
    with options that are none of an embed, an attachment and an array. *)
Theorem transformOptions_second_pass (content options extra : Value)
    (isWebhook isWebhook' : bool) :
  let first_pass := transformOptions content options extra isWebhook in
  let second_pass :=
    transformOptions (VObj Plain first_pass) VUndefined VUndefined isWebhook' in
  second_pass = first_pass ∪ {[ "content" := VStr "" ]}
  ∧ (is_Some (first_pass !! "content") → second_pass = first_pass)
  ∧ ((∀ items, content = VArr items →
        is_array options = true
        ∨ instanceof options MessageEmbed = true
        ∨ instanceof options MessageAttachment = true
        ∨ partitionMessageAdditions items = ([], [])) →
     is_Some (first_pass !! "content")).
Proof.
  intros first_pass second_pass.
  split; [apply transformOptions_object_alone|].
  split; [apply transformOptions_object_alone_content|].
  intros Hshape. unfold first_pass, transformOptions.
  assert (∀ (over base : Obj),
            is_Some (base !! "content") → is_Some ((over ∪ base) !! "content")) as Hkeep.
  { intros over base Hv. apply lookup_union_is_Some. by right. }
  destruct content as [| |b|n|s|src|items|cls props].
  7: {
    specialize (Hshape items eq_refl).
    cbn [is_array negb]. rewrite andb_false_r.
    destruct (truthy options) eqn:Ht.
    - destruct options as [| |b|n|s|src|items'|cls props]; try done; simpl;
        try (destruct (partitionMessageAdditions items) as [embeds files] eqn:Hp;
             (destruct Hshape as [?|[?|[?|[= -> ->]]]]; try done);
             simpl; do 2 apply Hkeep; by rewrite lookup_singleton_eq).
      + destruct (partitionMessageAdditions items') as [embeds files].
        destruct isWebhook; by apply Hkeep.
      + destruct cls; simpl;
          try (destruct isWebhook; by apply Hkeep); try (by apply Hkeep);
          destruct (partitionMessageAdditions items) as [embeds files] eqn:Hp;
          (destruct Hshape as [?|[?|[?|[= -> ->]]]]; try done);
          simpl; do 2 apply Hkeep; by rewrite lookup_singleton_eq.
    - simpl. destruct Hshape as [H|[H|[H|Hp]]];
        try (by destruct options as [| | | | | | |[] ?]).
      rewrite Hp. simpl. do 2 apply Hkeep. by rewrite lookup_singleton_eq. }
  all: repeat case_match; simplify_eq/=;
    repeat apply Hkeep;
    first [ by rewrite lookup_singleton_eq
          | by destruct isWebhook
          | done ].
Qed.

End Normalizer.

(* ===================================================================== *)
(** * Strings and the escaping of mass mentions *)
(* ===================================================================== *)

Module Escaping.

Lemma app_cons (x : ascii) (a b : string) : String x a +:+ b = String x (a +:+ b).
Proof. reflexivity. Qed.

Lemma app_nil_l (a : string) : "" +:+ a = a.
Proof. reflexivity. Qed.

Lemma app_assoc (a b c : string) : (a +:+ b) +:+ c = a +:+ (b +:+ c).
Proof. induction a as [|x a IH]; [done|]. by rewrite !app_cons, IH. Qed.

Lemma app_nil_r (a : string) : a +:+ "" = a.
Proof. induction a as [|x a IH]; [done|]. by rewrite app_cons, IH. Qed.

Lemma starts_with_spec (p s : string) :
  starts_with p s = true ↔ ∃ b, s = p +:+ b.
Proof.
  revert s. induction p as [|x p IH]; intros s.
  - split; [by exists s | by destruct s].
  - destruct s as [|y s]; simpl.
    + split; [done | by intros [b Hb]].
    + rewrite andb_true_iff, bool_decide_eq_true, IH. split.
      * intros [-> [b ->]]. by exists b.
      * intros [b Hb]. injection Hb as -> ->. eauto.
Qed.

Lemma occurs_nil (p : string) : p ≠ "" → ¬ occurs p "".
Proof.
  intros Hp (a & b & Hab). destruct a; [|done]. by destruct p.
Qed.

Lemma occurs_cons (p : string) (c : ascii) (s : string) :
  occurs p (String c s) ↔ starts_with p (String c s) = true ∨ occurs p s.
Proof.
  split.
  - intros (a & b & Hab). destruct a as [|x a].
    + left. apply starts_with_spec. by exists b.
    + right. injection Hab as -> ->. by exists a, b.
  - intros [H|(a & b & ->)].
    + apply starts_with_spec in H as [b Hb]. by exists "", b.
    + by exists (String c a), b.
Qed.

Lemma escape_mentions_cons (c : ascii) (r : string) :
  escape_mentions (String c r)
  = if bool_decide (c = "@"%char) && (starts_with "everyone" r || starts_with "here" r)
    then String c (zwsp +:+ escape_mentions r)
    else String c (escape_mentions r).
Proof. reflexivity. Qed.

Lemma escape_mentions_other (c : ascii) (r : string) :
  c ≠ "@"%char → escape_mentions (String c r) = String c (escape_mentions r).
Proof. intros Hc. simpl. by rewrite bool_decide_false. Qed.

Lemma escape_mentions_zwsp (r : string) :
  escape_mentions (zwsp +:+ r) = zwsp +:+ escape_mentions r.
Proof.
  unfold zwsp. rewrite !app_cons, !app_nil_l.
  by rewrite !escape_mentions_other.
Qed.

(** The escaping does not change what a string begins with, as far as
    words without an [@] go. *)
Lemma starts_with_escape_mentions (p s : string) :
  at_free p = true → starts_with p (escape_mentions s) = starts_with p s.
Proof.
  revert s. induction p as [|x p IH]; intros s Hp; [done|].
  simpl in Hp. apply andb_true_iff in Hp as [Hx Hp].
  apply negb_true_iff, bool_decide_eq_false in Hx.
  destruct s as [|c r]; [done|].
  destruct (decide (x = c)) as [<-|Hxc].
  - rewrite escape_mentions_other by done. simpl. by rewrite IH.
  - simpl. destruct (_ && _); simpl; by rewrite bool_decide_false.
Qed.

Lemma starts_with_app_at (p a x : string) :
  at_free p = true → starts_with p (a +:+ String "@" x) = starts_with p a.
Proof.
  revert a. induction p as [|q p IH]; intros a Hp; [done|].
  simpl in Hp. apply andb_true_iff in Hp as [Hq Hp].
  apply negb_true_iff in Hq.
  destruct a as [|c a]; rewrite ?app_cons, ?app_nil_l; simpl.
  - by rewrite Hq.
  - by rewrite IH.
Qed.

(** The escaping of a string that is cut in front of an [@] is the
    escaping of its two parts. *)
Lemma escape_mentions_app_at (a x : string) :
  escape_mentions (a +:+ String "@" x)
  = escape_mentions a +:+ escape_mentions (String "@" x).
Proof.
  induction a as [|c a IH]; [done|].
  rewrite app_cons, !escape_mentions_cons.
  rewrite !starts_with_app_at by done.
  destruct (_ && _); by rewrite IH, !app_cons, ?app_assoc.
Qed.

(** What the replacement does at a match. *)
Lemma escape_mentions_everyone (r : string) :
  escape_mentions ("@everyone" +:+ r)
  = "@" +:+ zwsp +:+ "everyone" +:+ escape_mentions r.
Proof.
  rewrite !app_cons, !app_nil_l, escape_mentions_cons.
  rewrite bool_decide_true by done. simpl andb. cbv iota.
  by rewrite !escape_mentions_other.
Qed.

Lemma escape_mentions_here (r : string) :
  escape_mentions ("@here" +:+ r) = "@" +:+ zwsp +:+ "here" +:+ escape_mentions r.
Proof.
  rewrite !app_cons, !app_nil_l, escape_mentions_cons.
  rewrite bool_decide_true by done. simpl andb. cbv iota.
  by rewrite !escape_mentions_other.
Qed.

Lemma starts_with_cons (a b : ascii) (p s : string) :
  starts_with (String a p) (String b s) = bool_decide (a = b) && starts_with p s.
Proof. reflexivity. Qed.

Lemma escape_mentions_nil (s : string) : escape_mentions s = "" → s = "".
Proof.
  destruct s as [|c r]; [done|]. rewrite escape_mentions_cons.
  by destruct (_ && _).
Qed.

(** A prefix of a concatenation that is no longer than the first part is
    a prefix of that part. *)
Lemma starts_with_app_short (p a b : string) :
  starts_with p (a +:+ b) = true →
  (String.length p ≤ String.length a)%nat →
  starts_with p a = true.
Proof.
  revert a. induction p as [|x p IH]; intros a Hs Hl; [done|].
  destruct a as [|y a]; [simpl in Hl; lia|].
  rewrite app_cons, starts_with_cons in Hs. rewrite starts_with_cons.
  apply andb_true_iff in Hs as [-> Hs]. rewrite andb_true_l.
  apply IH; [done|]. simpl in Hl. lia.
Qed.

(** A prefix, in front of a text that begins with it, stands twice. *)
Lemma starts_with_twice (m body rest : string) :
  starts_with m body = true →
  starts_with (m +:+ m) (m +:+ body +:+ rest) = true.
Proof.
  intros [b ->]%starts_with_spec. apply starts_with_spec. exists (b +:+ rest).
  by rewrite !app_assoc.
Qed.

Lemma concat_cons (b : string) (bs : list string) :
  String.concat "" (b :: bs) = b +:+ String.concat "" bs.
Proof. destruct bs; [by rewrite app_nil_r | done]. Qed.

Lemma escape_mentions_no_bare (p : string) (s : string) :
  p = "everyone" ∨ p = "here" → ¬ occurs (String "@" p) (escape_mentions s).
Proof.
  intros Hp. assert (at_free p = true) as Hfree by (by destruct Hp as [-> | ->]).
  induction s as [|c r IH]; [by apply occurs_nil|].
  rewrite escape_mentions_cons.
  destruct (bool_decide (c = "@"%char)) eqn:Hc.
  - apply bool_decide_eq_true in Hc as ->.
    destruct (starts_with "everyone" r || starts_with "here" r) eqn:Hm;
      simpl andb; cbv iota; rewrite occurs_cons; intros [H|H].
    + rewrite starts_with_cons in H. apply andb_true_iff in H as [_ H].
      unfold zwsp in H. rewrite app_cons in H.
      by destruct Hp as [-> | ->].
    + unfold zwsp in H. rewrite !app_cons, app_nil_l, !occurs_cons in H.
      destruct H as [H|[H|[H|H]]]; done.
    + rewrite starts_with_cons in H. apply andb_true_iff in H as [_ H].
      rewrite starts_with_escape_mentions in H by done.
      apply orb_false_iff in Hm as [??]. destruct Hp as [-> | ->]; congruence.
    + done.
  - apply bool_decide_eq_false in Hc. simpl andb. cbv iota.
    rewrite occurs_cons. intros [H|H]; [|done].
    rewrite starts_with_cons in H. apply andb_true_iff in H as [H _].
    by apply bool_decide_eq_true in H.
Qed.

Lemma escape_mentions_idempotent (s : string) :
  escape_mentions (escape_mentions s) = escape_mentions s.
Proof.
  induction s as [|c r IH]; [done|].
  rewrite escape_mentions_cons.
  destruct (bool_decide (c = "@"%char)) eqn:Hc.
  - apply bool_decide_eq_true in Hc as ->.
    destruct (starts_with "everyone" r || starts_with "here" r) eqn:Hm;
      simpl andb; cbv iota; rewrite escape_mentions_cons.
    + unfold zwsp at 1 2. rewrite !app_cons, !starts_with_cons.
      simpl andb. simpl orb. cbv iota.
      fold zwsp. by rewrite escape_mentions_zwsp, IH.
    + rewrite !starts_with_escape_mentions by done.
      rewrite Hm. simpl andb. cbv iota. by rewrite IH.
  - apply bool_decide_eq_false in Hc. simpl andb. cbv iota.
    by rewrite escape_mentions_other, IH.
Qed.

Lemma escape_mentions_unaffected (s : string) :
  ¬ occurs "@everyone" s → ¬ occurs "@here" s → escape_mentions s = s.
Proof.
  induction s as [|c r IH]; [done|]. intros He Hh.
  rewrite occurs_cons in He, Hh. rewrite starts_with_cons in He, Hh.
  rewrite escape_mentions_cons.
  destruct (bool_decide (c = "@"%char)) eqn:Hc.
  - apply bool_decide_eq_true in Hc as ->.
    rewrite bool_decide_true, andb_true_l in He, Hh by done.
    destruct (starts_with "everyone" r); [destruct He; by left|].
    destruct (starts_with "here" r); [destruct Hh; by left|].
    simpl. f_equal. apply IH; intros H; [apply He | apply Hh]; by right.
  - simpl andb. cbv iota. f_equal.
    apply IH; intros H; [apply He | apply Hh]; by right.
Qed.

End Escaping.

(* ===================================================================== *)
(** * The content formatter *)
(* ===================================================================== *)

Module Formatter.
Import Escaping.

Section With_collaborators.
Context `{collab : Collaborators}.

Lemma get_insert_eq (o : Obj) (k : string) (v : Value) : get (<[k := v]> o) k = v.
Proof. unfold get. by rewrite lookup_insert_eq. Qed.

Lemma get_insert_ne (o : Obj) (k k' : string) (v : Value) :
  k ≠ k' → get (<[k := v]> o) k' = get o k'.
Proof. intros. unfold get. by rewrite lookup_insert_ne. Qed.

Lemma mention_of_truthy (reply id : Value) (rest : string) :
  truthy (VStr (mention_of reply id +:+ rest)) = true.
Proof. unfold mention_of. by rewrite !app_cons. Qed.

Lemma mention_of_truthy' (reply id : Value) :
  truthy (VStr (mention_of reply id)) = true.
Proof. unfold mention_of. by rewrite !app_cons. Qed.

(** [makeContent], step by step. *)
Lemma makeContent_eq (target : Target) (options : Obj) :
  makeContent target options
  = mention ← mention_part target options;
    let content := content_of options in
    if truthy (VStr content) || truthy (VStr mention) then
      let text :=
        escaped target options
          (mention +:+ (if isCode options then fenced options content else content)) in
      if isSplit options
      then Chunks <$> splitMessage text (split_config target options mention)
      else Ok (Single text)
    else Ok (Single content).
Proof.
  unfold makeContent, mention_part, split_config, escaped, fenced,
    prepend_base, append_base.
  fold (content_of options). fold (split_base options).
  destruct (mentions target options) eqn:Hm.
  - destruct (users_resolveID _ _) as [id|e]; [|done].
    result_step.
    rewrite mention_of_truthy', !orb_true_r.
    destruct (isSplit options), (isCode options); cbv zeta iota beta; try done.
    rewrite !get_insert_eq, !get_insert_ne by done.
    unfold or_else at 2.
    rewrite mention_of_truthy. cbn [to_string].
    by rewrite insert_insert_eq.
  - result_step.
    change (truthy (VStr "")) with false. rewrite !orb_false_r.
    destruct (isSplit options), (isCode options),
      (truthy (VStr (content_of options))); cbv zeta iota beta; try done.
    by rewrite !get_insert_ne by done.
Qed.

Lemma configured_insert_eq (o : Obj) (k s : string) :
  configured (<[k := VStr s]> o) k = s.
Proof. unfold configured. by rewrite get_insert_eq. Qed.

Lemma configured_insert_ne (o : Obj) (k k' : string) (v : Value) :
  k ≠ k' → configured (<[k := v]> o) k' = configured o k'.
Proof. intros. unfold configured. by rewrite get_insert_ne. Qed.

(** The guard of the mention prefix, read off its three conditions. *)
Lemma mentions_intro (target : Target) (options : Obj) :
  truthy (get options "reply") = true →
  isUser target = false →
  target_type target ≠ VStr "dm" →
  mentions target options = true.
Proof.
  intros Hr Hu Ht. unfold mentions. rewrite Hr, Hu. simpl.
  destruct (target_type target) as [| | | |s| | |]; try done.
  rewrite bool_decide_false; [done|]. by intros ->.
Qed.

(** The two forms of the mention token. *)
Lemma mention_of_nickname (props : Obj) (id : Value) :
  truthy (get props "nickname") = true →
  mention_of (VObj GuildMember props) id = "<@!" +:+ to_string id +:+ ">, ".
Proof. intros Hn. unfold mention_of. by rewrite Hn. Qed.

Lemma mention_of_plain (reply id : Value) :
  (∀ props, reply = VObj GuildMember props → truthy (get props "nickname") = false) →
  mention_of reply id = "<@" +:+ to_string id +:+ ">, ".
Proof.
  intros Hn. unfold mention_of.
  destruct reply as [| | | | | | |[] props]; try done.
  by rewrite (Hn props).
Qed.

End With_collaborators.

(** C8.  The escaping of mass mentions leaves no [@everyone] and no
    [@here] behind: each occurrence gets a zero-width space after its [@].
    It is sensitive to case ([@Everyone] is left alone, as is every string
    without an occurrence) and idempotent.  [makeContent] applies it to
    the formatted content, before any split, whenever [disableEveryone]
    holds, from the option or else from the client. *)
Theorem C8_mention_escaping :
  (∀ s, ¬ occurs "@everyone" (escape_mentions s)
        ∧ ¬ occurs "@here" (escape_mentions s))
  ∧ (∀ a b, escape_mentions (a +:+ "@everyone" +:+ b)
            = escape_mentions a +:+ "@" +:+ zwsp +:+ "everyone" +:+ escape_mentions b)
  ∧ (∀ a b, escape_mentions (a +:+ "@here" +:+ b)
            = escape_mentions a +:+ "@" +:+ zwsp +:+ "here" +:+ escape_mentions b)
  ∧ (∀ s, ¬ occurs "@everyone" s → ¬ occurs "@here" s → escape_mentions s = s)
  ∧ escape_mentions "@Everyone hi" = "@Everyone hi"
  ∧ escape_mentions "@everyone hi" = "@" +:+ zwsp +:+ "everyone hi"
  ∧ (∀ s, escape_mentions (escape_mentions s) = escape_mentions s)
  ∧ (∀ (collab : Collaborators) target options mention,
       truthy (disableEveryone target options) = true →
       mention_part target options = Ok mention →
       let text :=
         escape_mentions
           (mention +:+ (if isCode options then fenced options (content_of options)
                         else content_of options)) in
       makeContent target options
       = if truthy (VStr (content_of options)) || truthy (VStr mention) then
           if isSplit options
           then Chunks <$> splitMessage text (split_config target options mention)
           else Ok (Single text)
         else Ok (Single ""))
  ∧ (∀ (collab : Collaborators) target options out,
       truthy (disableEveryone target options) = true →
       makeContent target options = Ok (Single out) →
       ¬ occurs "@everyone" out ∧ ¬ occurs "@here" out).
Proof.
  assert (∀ s, ¬ occurs "@everyone" (escape_mentions s)
               ∧ ¬ occurs "@here" (escape_mentions s)) as Hbare.
  { intros s. split; apply escape_mentions_no_bare; auto. }
  assert (∀ (collab : Collaborators) target options mention,
       truthy (disableEveryone target options) = true →
       mention_part target options = Ok mention →
       makeContent target options
       = if truthy (VStr (content_of options)) || truthy (VStr mention) then
           if isSplit options
           then Chunks <$>
                splitMessage
                  (escape_mentions
                     (mention +:+
                      (if isCode options then fenced options (content_of options)
                       else content_of options)))
                  (split_config target options mention)
           else Ok (Single
                  (escape_mentions
                     (mention +:+
                      (if isCode options then fenced options (content_of options)
                       else content_of options))))
         else Ok (Single "")) as Hmake.
  { intros collab target options mention Hd Hm.
    rewrite makeContent_eq, Hm. result_step. cbv zeta.
    unfold escaped. rewrite Hd.
    destruct (truthy (VStr (content_of options))) eqn:Hc; [done|].
    rewrite !orb_false_l. destruct (truthy (VStr mention)); [done|].
    simpl in Hc. apply negb_false_iff, bool_decide_eq_true in Hc.
    by rewrite Hc. }
  split; [done|].
  split.
  { intros a b. change ("@everyone" +:+ b) with (String "@" ("everyone" +:+ b)).
    rewrite escape_mentions_app_at.
    change (String "@" ("everyone" +:+ b)) with ("@everyone" +:+ b).
    by rewrite escape_mentions_everyone. }
  split.
  { intros a b. change ("@here" +:+ b) with (String "@" ("here" +:+ b)).
    rewrite escape_mentions_app_at.
    change (String "@" ("here" +:+ b)) with ("@here" +:+ b).
    by rewrite escape_mentions_here. }
  split; [apply escape_mentions_unaffected|].
  split; [done|]. split; [done|].
  split; [apply escape_mentions_idempotent|].
  split; [apply Hmake|].
  intros collab target options out Hd Hout.
  pose proof (makeContent_eq target options) as Heq.
  destruct (mention_part target options) as [mention|e] eqn:Hm;
    [|by rewrite Hout in Heq].
  rewrite (Hmake _ _ _ mention) in Hout by done.
  destruct (_ || _).
  - destruct (isSplit options).
    + by destruct (splitMessage _ _).
    + injection Hout as <-. apply Hbare.
  - injection Hout as <-. split; by apply occurs_nil.
Qed.

(** ** The splitter of the model *)

Lemma string_of_list_ascii_app (a b : list ascii) :
  String.string_of_list_ascii (a ++ b)
  = String.string_of_list_ascii a +:+ String.string_of_list_ascii b.
Proof. induction a as [|x a IH]; [done|]. simpl. by rewrite IH. Qed.

Lemma concat_string_of_list_ascii (ps : list (list ascii)) :
  String.concat "" (String.string_of_list_ascii <$> ps)
  = String.string_of_list_ascii (concat ps).
Proof.
  induction ps as [|p ps IH]; [done|].
  rewrite fmap_cons. simpl concat. rewrite string_of_list_ascii_app, <- IH.
  destruct ps as [|q ps]; [by rewrite app_nil_r|done].
Qed.

Lemma pieces_concat (fuel width : nat) (text : list ascii) :
  (0 < width)%nat → (length text ≤ fuel)%nat →
  concat (pieces fuel width text) = text.
Proof.
  intros Hw. revert text.
  induction fuel as [|fuel IH]; intros [|c text] Hlen; simpl in *; try done; try lia.
  rewrite IH.
  - destruct width; [lia|]. simpl. by rewrite take_drop.
  - destruct width; [lia|]. simpl. rewrite length_drop. lia.
Qed.

Lemma string_length_list (s : string) :
  length (String.list_ascii_of_string s) = String.length s.
Proof. induction s; simpl; auto. Qed.

(** The splitter of the model divides the text and wraps every chunk. *)
Lemma splitMessage_spec_divides_and_wraps : divides_and_wraps splitMessage_spec.
Proof.
  intros text opts chunks. unfold splitMessage_spec.
  case_bool_decide as Hroom; [done|]. intros [= <-].
  eexists (String.string_of_list_ascii <$> _). split.
  - by rewrite <- list_fmap_compose.
  - rewrite concat_string_of_list_ascii, pieces_concat.
    + apply String.string_of_list_ascii_of_string.
    + lia.
    + by rewrite string_length_list.
Qed.

(** ** The mention prefix *)

Lemma nickname_set_or_not (reply : Value) :
  (∃ props, reply = VObj GuildMember props ∧ truthy (get props "nickname") = true)
  ∨ ¬ (∃ props, reply = VObj GuildMember props ∧ truthy (get props "nickname") = true).
Proof.
  destruct reply as [| | | | | | |cls props];
    try (right; intros (p & Hp & _); discriminate).
  destruct (decide (cls = GuildMember)) as [->|Hc];
    [|right; intros (p & Hp & _); congruence].
  destruct (truthy (get props "nickname")) eqn:Hn; [left; eauto|].
  right. intros (p & Hp & Hn'). injection Hp as <-. congruence.
Qed.

(** No mention prefix is made without a reply, for a user or a guild
    member as target, or in a direct-message channel: the content is
    fenced if asked, escaped if asked, and split if asked; an empty
    content stays the empty string. *)
Theorem makeContent_without_mention `{collab : Collaborators}
    (target : Target) (options : Obj) :
  truthy (get options "reply") = false
  ∨ isUser target = true
  ∨ target_type target = VStr "dm" →
  makeContent target options
  = if truthy (VStr (content_of options)) then
      let text :=
        escaped target options
          (if isCode options then fenced options (content_of options)
           else content_of options) in
      if isSplit options
      then Chunks <$> splitMessage text (split_config target options "")
      else Ok (Single text)
    else Ok (Single "").
Proof.
  intros Hno.
  assert (mentions target options = false) as Hm.
  { unfold mentions. destruct Hno as [-> | [-> | ->]]; [done | |].
    - by rewrite andb_false_r.
    - by rewrite andb_false_r. }
  rewrite makeContent_eq. unfold mention_part. rewrite Hm.
  result_step. cbv zeta. rewrite orb_false_r.
  destruct (truthy (VStr (content_of options))) eqn:Hc; [done|].
  simpl in Hc. apply negb_false_iff, bool_decide_eq_true in Hc. by rewrite Hc.
Qed.

Lemma makeContent_without_mention_witness :
  makeContent (collab := spec_collaborators) dm
    {[ "content" := VStr "hi"; "reply" := VStr "123" ]}
  = Ok (Single "hi").
Proof.
  rewrite (makeContent_without_mention (collab := spec_collaborators) dm
             {[ "content" := VStr "hi"; "reply" := VStr "123" ]}).
  - reflexivity.
  - right. right. reflexivity.
Defined.

(** C5.  With a reply set, on a target that is neither a user nor a guild
    member and whose type is not ['dm'], [makeContent] asks the client to
    resolve the reply to an id.  When that fails, so does [makeContent],
    with the same error.  When it yields an id, the content begins with
    the mention of that id, in the nickname form exactly when the reply is
    a guild member whose nickname is set, followed by a comma and a space;
    the escaping of mass mentions and a split come after. *)
Theorem C5_reply_mention_prefix `{collab : Collaborators} (target : Target) (options : Obj) :
  truthy (get options "reply") = true →
  isUser target = false →
  target_type target ≠ VStr "dm" →
  let reply := get options "reply" in
  (∀ e, users_resolveID (target_client target) reply = Err e →
        makeContent target options = Err e)
  ∧ (∀ id, users_resolveID (target_client target) reply = Ok id →
       ∃ mention,
         ((∃ props, reply = VObj GuildMember props
                    ∧ truthy (get props "nickname") = true)
          ∧ mention = "<@!" +:+ to_string id +:+ ">, "
          ∨ (¬ ∃ props, reply = VObj GuildMember props
                        ∧ truthy (get props "nickname") = true)
            ∧ mention = "<@" +:+ to_string id +:+ ">, ")
         ∧ let text :=
             escaped target options
               (mention +:+ (if isCode options then fenced options (content_of options)
                             else content_of options)) in
           makeContent target options
           = if isSplit options
             then Chunks <$> splitMessage text (split_config target options mention)
             else Ok (Single text)).
Proof.
  intros Hr Hu Ht reply.
  pose proof (mentions_intro target options Hr Hu Ht) as Hm.
  split.
  - intros e He. rewrite makeContent_eq. unfold mention_part.
    fold reply. by rewrite Hm, He.
  - intros id Hid. exists (mention_of reply id). split.
    + destruct (nickname_set_or_not reply) as [(props & Hp & Hn)|Hno].
      * left. split; [by eauto|]. rewrite Hp. by apply mention_of_nickname.
      * right. split; [done|]. apply mention_of_plain.
        intros props Hp. destruct (truthy (get props "nickname")) eqn:Hn; [|done].
        destruct Hno. eauto.
    + rewrite makeContent_eq. unfold mention_part. fold reply.
      rewrite Hm, Hid. result_step. cbv zeta.
      by rewrite mention_of_truthy', orb_true_r.
Qed.

Lemma C5_reply_mention_prefix_witness :
  makeContent (collab := spec_collaborators) channel
    {[ "content" := VStr "hi"; "reply" := VNum 3 ]}
  = Err InvalidMentionTarget
  ∧ makeContent (collab := spec_collaborators) channel
      {[ "content" := VStr "hi";
         "reply" := VObj GuildMember {[ "id" := VStr "42"; "nickname" := VStr "Bo" ]} ]}
    = Ok (Single "<@!42>, hi")
  ∧ makeContent (collab := spec_collaborators) channel
      {[ "content" := VStr "hi"; "reply" := VObj User {[ "id" := VStr "42" ]} ]}
    = Ok (Single "<@42>, hi").
Proof.
  split; [|split].
  - apply (C5_reply_mention_prefix (collab := spec_collaborators) channel
             {[ "content" := VStr "hi"; "reply" := VNum 3 ]});
      [reflexivity | reflexivity | discriminate | reflexivity].
  - destruct (C5_reply_mention_prefix (collab := spec_collaborators) channel
                {[ "content" := VStr "hi";
                   "reply" := VObj GuildMember
                                {[ "id" := VStr "42"; "nickname" := VStr "Bo" ]} ]})
      as [_ Hok]; [reflexivity | reflexivity | discriminate |].
    destruct (Hok (VStr "42")) as (mention & [[_ ->]|[Hno _]] & ->);
      [reflexivity | reflexivity |].
    destruct Hno. eexists. split; reflexivity.
  - destruct (C5_reply_mention_prefix (collab := spec_collaborators) channel
                {[ "content" := VStr "hi"; "reply" := VObj User {[ "id" := VStr "42" ]} ]})
      as [_ Hok]; [reflexivity | reflexivity | discriminate |].
    destruct (Hok (VStr "42")) as (mention & [[(props & Hp & _) _]|[_ ->]] & ->);
      [reflexivity | discriminate | reflexivity].
Defined.

(** C10, as the code has it.  With a split, a mention prefix and no code
    fence, [makeContent] puts the mention prefix in front of the prepend
    of the split configuration, before any prepend the caller configured,
    and also in front of the content handed to the splitter (which the
    escaping of mass mentions may still rewrite, and leaves as it is when
    it is not in force).  Hence, with a splitter that wraps every chunk in
    the configured prepend and append and whose chunk bodies make up the
    text, there is a first chunk, and every chunk begins with the mention
    prefix and the caller's prepend.  The mention prefix stands twice at
    the start of the first chunk when the caller configured no prepend,
    the text still begins with the mention prefix, and the body of the
    first chunk is at least as long as the mention prefix. *)
Theorem C10_mention_prefix_in_prepend_and_in_content `{collab : Collaborators}
    (target : Target) (options : Obj) (id : Value) :
  isSplit options = true →
  isCode options = false →
  mentions target options = true →
  users_resolveID (target_client target) (get options "reply") = Ok id →
  let mention := mention_of (get options "reply") id in
  let text := escaped target options (mention +:+ content_of options) in
  makeContent target options
  = Chunks <$>
    splitMessage text
      (<["prepend" := VStr (mention +:+ prepend_base options)]> (split_base options))
  ∧ (truthy (disableEveryone target options) = false →
     text = mention +:+ content_of options)
  ∧ (divides_and_wraps splitMessage →
     ∀ chunks,
       makeContent target options = Ok (Chunks chunks) →
       ∃ body bodies,
         let wrap body :=
           (mention +:+ prepend_base options) +:+ body +:+
           configured (split_base options) "append" in
         chunks = wrap body :: (wrap <$> bodies)
         ∧ text = body +:+ String.concat "" bodies
         ∧ (prepend_base options = "" →
            starts_with mention text = true →
            (String.length mention ≤ String.length body)%nat →
            starts_with (mention +:+ mention) (wrap body) = true)).
Proof.
  intros Hs Hc Hm Hid mention text.
  assert (makeContent target options
          = Chunks <$>
            splitMessage text
              (<["prepend" := VStr (mention +:+ prepend_base options)]>
                 (split_base options))) as Heq.
  { rewrite makeContent_eq. unfold mention_part, split_config.
    rewrite Hm, Hid, Hs, Hc. result_step. cbv zeta.
    by rewrite mention_of_truthy', orb_true_r. }
  split; [done|]. split.
  { intros Hd. unfold text, escaped. by rewrite Hd. }
  intros Hsplit chunks Hchunks.
  rewrite Heq in Hchunks.
  destruct (splitMessage text _) as [chunks'|e] eqn:Hsp; [|done].
  injection Hchunks as ->.
  apply Hsplit in Hsp as (bodies & -> & Hbodies).
  rewrite configured_insert_eq, configured_insert_ne in * by done.
  destruct bodies as [|body bodies].
  - exfalso. unfold text, mention, escaped in Hbodies.
    destruct (truthy (disableEveryone target options)).
    + symmetry in Hbodies. apply escape_mentions_nil in Hbodies.
      unfold mention_of in Hbodies. by rewrite !app_cons in Hbodies.
    + unfold mention_of in Hbodies. by rewrite !app_cons in Hbodies.
  - exists body, bodies. split; [done|].
    rewrite concat_cons in Hbodies. split; [done|].
    intros Hpre Hstart Hlen. rewrite Hpre, app_nil_r.
    apply starts_with_twice.
    apply (starts_with_app_short mention body (String.concat "" bodies)); [|done].
    by rewrite Hbodies.
Qed.

Lemma C10_mention_prefix_in_prepend_and_in_content_witness :
  makeContent (collab := spec_collaborators) channel
    {[ "content" := VStr "hello"; "reply" := VStr "123"; "split" := VBool true ]}
  = Ok (Chunks ["<@123>, <@123>, hello"])
  ∧ makeContent (collab := spec_collaborators) channel
      {[ "content" := VStr "hello"; "reply" := VStr "123";
         "split" := VObj Plain {[ "maxLength" := VNum 20 ]} ]}
    = Ok (Chunks ["<@123>, <@123>, hell"; "<@123>, o"])
  ∧ ∃ body,
      "<@123>, <@123>, hell" = "<@123>, " +:+ body
      ∧ starts_with "<@123>, <@123>, " ("<@123>, " +:+ body) = true.
Proof.
  split; [|split].
  - destruct (C10_mention_prefix_in_prepend_and_in_content
                (collab := spec_collaborators) channel
                {[ "content" := VStr "hello"; "reply" := VStr "123";
                   "split" := VBool true ]} (VStr "123")) as [-> _];
      reflexivity.
  - destruct (C10_mention_prefix_in_prepend_and_in_content
                (collab := spec_collaborators) channel
                {[ "content" := VStr "hello"; "reply" := VStr "123";
                   "split" := VObj Plain {[ "maxLength" := VNum 20 ]} ]}
                (VStr "123")) as [-> _];
      reflexivity.
  - destruct (C10_mention_prefix_in_prepend_and_in_content
                (collab := spec_collaborators) channel
                {[ "content" := VStr "hello"; "reply" := VStr "123";
                   "split" := VObj Plain {[ "maxLength" := VNum 20 ]} ]}
                (VStr "123")) as (_ & _ & Hchunks);
      [reflexivity | reflexivity | reflexivity | reflexivity |].
    destruct (Hchunks splitMessage_spec_divides_and_wraps
                ["<@123>, <@123>, hell"; "<@123>, o"])
      as (body & bodies & Hc & Ht & Htwice); [reflexivity|].
    change (configured _ "append") with "" in Hc, Htwice.
    change (prepend_base _) with "" in Hc, Htwice.
    change (mention_of _ _) with "<@123>, " in Hc, Htwice.
    rewrite !app_nil_r in Hc, Htwice.
    injection Hc as Hbody _. rewrite app_nil_l in Hbody.
    exists body. split; [by rewrite <- Hbody|].
    apply Htwice; [reflexivity | reflexivity |].
    rewrite <- Hbody. simpl. lia.
Defined.

(** C10, as stated, fails.  With a prepend of the caller's, here ["> "],
    the two mention prefixes are apart: whatever splitter wraps every
    chunk in the configured prepend and append, no chunk begins with the
    mention prefix twice.  With no prepend and a limit of ten characters,
    the body of the first chunk is shorter than the mention prefix, and
    the first chunk holds the second mention prefix only in part. *)
Lemma C10_mention_not_twice_at_the_start :
  let apart : Obj :=
    {[ "content" := VStr "hello"; "reply" := VStr "123";
       "split" := VObj Plain {[ "prepend" := VStr "> " ]} ]} in
  let short : Obj :=
    {[ "content" := VStr "hello"; "reply" := VStr "123";
       "split" := VObj Plain {[ "maxLength" := VNum 10 ]} ]} in
  let mention := "<@123>, " in
  (isSplit apart = true ∧ isCode apart = false ∧ mentions channel apart = true
   ∧ mention_part channel apart = Ok mention)
  ∧ makeContent (collab := spec_collaborators) channel apart
    = Ok (Chunks ["<@123>, > <@123>, hello"])
  ∧ starts_with (mention +:+ mention) "<@123>, > <@123>, hello" = false
  ∧ (∀ split chunks,
       divides_and_wraps split →
       makeContent (collab := with_splitter split) channel apart = Ok (Chunks chunks) →
       Forall (λ chunk, starts_with (mention +:+ mention) chunk = false) chunks)
  ∧ (isSplit short = true ∧ isCode short = false ∧ mentions channel short = true
     ∧ mention_part channel short = Ok mention)
  ∧ makeContent (collab := spec_collaborators) channel short
    = Ok (Chunks ["<@123>, <@"; "<@123>, 12"; "<@123>, 3>"; "<@123>, , ";
                  "<@123>, he"; "<@123>, ll"; "<@123>, o"])
  ∧ starts_with (mention +:+ mention) "<@123>, <@" = false.
Proof.
  intros apart short mention.
  split; [repeat split; reflexivity|]. split; [reflexivity|].
  split; [reflexivity|]. split.
  2: { split; [repeat split; reflexivity|]. split; reflexivity. }
  intros split chunks Hsplit Hchunks.
  assert (makeContent (collab := with_splitter split) channel apart
          = Chunks <$> split "<@123>, hello"
                         (<["prepend" := VStr "<@123>, > "]>
                            {[ "prepend" := VStr "> " ]})) as Heq.
  { rewrite makeContent_eq. reflexivity. }
  rewrite Heq in Hchunks.
  destruct (split _ _) as [chunks'|e] eqn:Hsp; [|done].
  injection Hchunks as ->.
  apply Hsplit in Hsp as (bodies & -> & _).
  rewrite configured_insert_eq.
  apply Forall_fmap, Forall_forall. intros body _. reflexivity.
Qed.

(** ** The code fence and the split *)

(** C4, as the code has it.  With a code fence, a split and non-empty
    content, the fence wraps the content handed to the splitter, and the
    fence is also added to the split configuration: its opening at the end
    of the prepend, its closing at the start of the append.  Hence, with a
    splitter that wraps every chunk in the configured prepend and append,
    every chunk holds the opening fence with its language right after the
    prepend it was given and the closing fence right before the append. *)
Theorem C4_fence_in_content_and_in_split_config `{collab : Collaborators}
    (target : Target) (options : Obj) (mention : string) :
  isCode options = true →
  isSplit options = true →
  truthy (VStr (content_of options)) = true →
  mention_part target options = Ok mention →
  let fence_open := "```" +:+ codeName options +:+ nl in
  let fence_close := nl +:+ "```" in
  let text :=
    escaped target options
      (mention +:+ fence_open +:+ escapeMarkdown (content_of options) true
       +:+ fence_close) in
  makeContent target options
  = Chunks <$>
    splitMessage text
      (<["append" := VStr (fence_close +:+ append_base options)]>
         (<["prepend" := VStr ((mention +:+ prepend_base options) +:+ fence_open)]>
            (split_base options)))
  ∧ (divides_and_wraps splitMessage →
     ∀ chunks,
       makeContent target options = Ok (Chunks chunks) →
       ∃ bodies,
         chunks = (λ body, ((mention +:+ prepend_base options) +:+ fence_open) +:+
                           body +:+ fence_close +:+ append_base options) <$> bodies
         ∧ String.concat "" bodies = text).
Proof.
  intros Hc Hs Hn Hm fence_open fence_close text.
  assert (makeContent target options
          = Chunks <$>
            splitMessage text
              (<["append" := VStr (fence_close +:+ append_base options)]>
                 (<["prepend" :=
                      VStr ((mention +:+ prepend_base options) +:+ fence_open)]>
                    (split_base options)))) as Heq.
  { rewrite makeContent_eq, Hm. result_step. cbv zeta.
    unfold split_config, fenced. rewrite Hn, Hc, Hs. simpl orb. cbv iota.
    unfold text, fence_open, fence_close. by rewrite !app_assoc. }
  split; [done|]. intros Hsplit chunks Hchunks.
  rewrite Heq in Hchunks.
  destruct (splitMessage text _) as [chunks'|e] eqn:Hsp; [|done].
  injection Hchunks as ->.
  apply Hsplit in Hsp as (bodies & -> & Hbodies).
  exists bodies. split; [|done].
  by rewrite configured_insert_eq, configured_insert_ne, configured_insert_eq.
Qed.

Lemma C4_fence_in_content_and_in_split_config_witness :
  makeContent (collab := spec_collaborators) channel
    {[ "content" := VStr "abcdefgh"; "code" := VStr "js";
       "split" := VObj Plain {[ "maxLength" := VNum 20 ]} ]}
  = Ok (Chunks ["```js" +:+ nl +:+ "```js" +:+ nl +:+ "abcd" +:+ nl +:+ "```";
                "```js" +:+ nl +:+ "efgh" +:+ nl +:+ "```" +:+ nl +:+ "```"]).
Proof.
  destruct (C4_fence_in_content_and_in_split_config
              (collab := spec_collaborators) channel
              {[ "content" := VStr "abcdefgh"; "code" := VStr "js";
                 "split" := VObj Plain {[ "maxLength" := VNum 20 ]} ]} "")
    as [-> _]; reflexivity.
Defined.

(** C4, as stated, fails: for the content ["x"], the language ["js"] and
    a split, no text free of fence markers is what [makeContent] hands to
    the splitter; with the splitter of the model, the one chunk carries
    the fence twice, once from the text and once from the prepend and the
    append. *)
Lemma C4_fence_stays_in_the_content :
  let options : Obj :=
    {[ "content" := VStr "x"; "code" := VStr "js"; "split" := VBool true ]} in
  isCode options = true
  ∧ isSplit options = true
  ∧ (¬ ∃ text config,
         ¬ occurs "```" text
         ∧ ∀ split, makeContent (collab := with_splitter split) channel options
                    = Chunks <$> split text config)
  ∧ makeContent (collab := spec_collaborators) channel options
    = Ok (Chunks ["```js" +:+ nl +:+ "```js" +:+ nl +:+ "x" +:+ nl +:+ "```"
                  +:+ nl +:+ "```"]).
Proof.
  intros options. split; [reflexivity|]. split; [reflexivity|]. split; [|reflexivity].
  intros (text & config & Hfree & Hall).
  specialize (Hall (λ t _, Ok [t])). vm_compute in Hall.
  injection Hall as <-. apply Hfree.
  by exists "", ("js" +:+ nl +:+ "x" +:+ nl +:+ "```").
Qed.

End Formatter.

(* ===================================================================== *)
(** * The payload resolver *)
(* ===================================================================== *)

Module Resolver.
Import Escaping Formatter.

Section With_collaborators.
Context `{collab : Collaborators}.

Lemma spread_error (v : Value) (e : Error) : spread v = Err e → e = TypeError.
Proof. destruct v; simpl; congruence. Qed.

Lemma embedLikes_error (target : Target) (options : Obj) (e : Error) :
  embedLikes target options = Err e → e = TypeError.
Proof.
  unfold embedLikes.
  destruct (isWebhook target), (truthy _); try done. apply spread_error.
Qed.

(** [resolveData] once the content is made and the nonce has passed. *)
Lemma resolveData_eq (target : Target) (options : Obj) (c : Content) (n : Value) :
  makeContent target options = Ok c →
  (if negb (is_undefined (get options "nonce")) then
     match parseInt (get options "nonce") with
     | Some n =>
         if bool_decide (n < 0) then Err RangeError_MESSAGE_NONCE_TYPE
         else Ok (VNum n)
     | None => Err RangeError_MESSAGE_NONCE_TYPE
     end
   else Ok VUndefined) = Ok n →
  resolveData target options
  = es ← embedLikes target options;
    Ok {| content := c;
          tts := truthy (get options "tts");
          nonce := n;
          embed := if is_null (get options "embed") then VNull
                   else first (map apiTransform es);
          embeds := map apiTransform es;
          username := if isWebhook target
                      then or_else (get options "username") (target_name target)
                      else VUndefined;
          avatar_url := if isWebhook target && truthy (get options "avatarURL")
                        then get options "avatarURL" else VUndefined |}.
Proof.
  intros Hc Hn. unfold resolveData. rewrite Hc. result_step.
  rewrite Hn. result_step.
  destruct (embedLikes target options) as [es|e]; [|done]. result_step.
  by destruct (isWebhook target), (truthy (get options "avatarURL")).
Qed.

End With_collaborators.

(** C3.  Once the content is made, [resolveData] looks at the nonce.  A
    nonce that is not [undefined] is parsed as an integer, and the call
    fails with the range error [MESSAGE_NONCE_TYPE] exactly when the parse
    yields [NaN] or a negative number; otherwise the payload carries the
    parsed number.  With no nonce the payload's nonce is [undefined],
    not 0, and no such error is raised.  ["5"] parses to 5, ["-1"] to -1
    (which fails) and ["abc"] to [NaN] (which fails). *)
Theorem C3_nonce_validation `{collab : Collaborators}
    (target : Target) (options : Obj) (c : Content) :
  makeContent target options = Ok c →
  let v := get options "nonce" in
  (v ≠ VUndefined →
   (parseInt v = None ∨ ∃ n, parseInt v = Some n ∧ n < 0) →
   resolveData target options = Err RangeError_MESSAGE_NONCE_TYPE)
  ∧ (v ≠ VUndefined →
     ∀ n, parseInt v = Some n → 0 ≤ n →
       resolveData target options ≠ Err RangeError_MESSAGE_NONCE_TYPE
       ∧ ∀ es, embedLikes target options = Ok es →
           ∃ p, resolveData target options = Ok p ∧ nonce p = VNum n)
  ∧ (v = VUndefined →
     resolveData target options ≠ Err RangeError_MESSAGE_NONCE_TYPE
     ∧ ∀ es, embedLikes target options = Ok es →
         ∃ p, resolveData target options = Ok p ∧ nonce p = VUndefined)
  ∧ parseInt (VStr "5") = Some 5
  ∧ parseInt (VStr "-1") = Some (-1)
  ∧ parseInt (VStr "abc") = None.
Proof.
  intros Hc v.
  assert (∀ checked,
    (if negb (is_undefined v) then
       match parseInt v with
       | Some n =>
           if bool_decide (n < 0) then Err RangeError_MESSAGE_NONCE_TYPE
           else Ok (VNum n)
       | None => Err RangeError_MESSAGE_NONCE_TYPE
       end
     else Ok VUndefined) = Ok checked →
    resolveData target options ≠ Err RangeError_MESSAGE_NONCE_TYPE
    ∧ ∀ es, embedLikes target options = Ok es →
        ∃ p, resolveData target options = Ok p ∧ nonce p = checked) as Hpass.
  { intros n Hn. rewrite (resolveData_eq target options c n) by done. split.
    - destruct (embedLikes target options) as [es|e] eqn:He; [done|].
      apply embedLikes_error in He as ->. done.
    - intros es ->. eexists. split; reflexivity. }
  split; [|split; [|split]].
  - intros Hv Hbad. unfold resolveData. rewrite Hc. result_step.
    fold v. assert (negb (is_undefined v) = true) as -> by (by destruct v).
    destruct Hbad as [-> | (k & -> & Hk)]; [done|].
    by rewrite bool_decide_true.
  - intros Hv n Hn Hpos. apply Hpass.
    assert (negb (is_undefined v) = true) as -> by (by destruct v).
    by rewrite Hn, bool_decide_false by lia.
  - intros Hv. apply Hpass. by rewrite Hv.
  - by vm_compute.
Qed.

Lemma C3_nonce_validation_witness :
  resolveData (collab := spec_collaborators) hook
    {[ "content" := VStr "hello"; "nonce" := VStr "-1" ]}
  = Err RangeError_MESSAGE_NONCE_TYPE
  ∧ resolveData (collab := spec_collaborators) hook
      {[ "content" := VStr "hello"; "nonce" := VStr "abc" ]}
    = Err RangeError_MESSAGE_NONCE_TYPE
  ∧ (∃ p, resolveData (collab := spec_collaborators) hook
            {[ "content" := VStr "hello"; "nonce" := VStr "5" ]} = Ok p
          ∧ nonce p = VNum 5)
  ∧ (∃ p, resolveData (collab := spec_collaborators) hook
            {[ "content" := VStr "hello" ]} = Ok p
          ∧ nonce p = VUndefined).
Proof.
  split; [|split; [|split]].
  - apply (C3_nonce_validation (collab := spec_collaborators) hook
             {[ "content" := VStr "hello"; "nonce" := VStr "-1" ]} (Single "hello"));
      [reflexivity | discriminate |].
    right. exists (-1). split; [reflexivity | lia].
  - apply (C3_nonce_validation (collab := spec_collaborators) hook
             {[ "content" := VStr "hello"; "nonce" := VStr "abc" ]} (Single "hello"));
      [reflexivity | discriminate |].
    left. reflexivity.
  - eapply (C3_nonce_validation (collab := spec_collaborators) hook
              {[ "content" := VStr "hello"; "nonce" := VStr "5" ]} (Single "hello"));
      [reflexivity | discriminate | reflexivity | lia | reflexivity].
  - eapply (C3_nonce_validation (collab := spec_collaborators) hook
              {[ "content" := VStr "hello" ]} (Single "hello"));
      reflexivity.
Defined.

(** ** One embed or a list of embeds *)

Lemma filter_all_embeds (items : list Value) :
  Forall (λ v, instanceof v MessageEmbed = true) items →
  filter (λ v, instanceof v MessageEmbed) items = items
  ∧ filter (λ v, instanceof v MessageAttachment) items = [].
Proof.
  induction 1 as [|v items Hv _ [IH1 IH2]]; [done|].
  destruct v as [| | | | | | |cls props]; try done.
  destruct cls; try done.
  rewrite filter_cons_True, filter_cons_False by (simpl; auto).
  by rewrite IH1, IH2.
Qed.

(** The options made from an array of embeds given as the options. *)
Lemma transformOptions_embeds (content : Value) (items : list Value) (isWebhook : bool) :
  Forall (λ v, instanceof v MessageEmbed = true) items →
  transformOptions content (VArr items) VUndefined isWebhook
  = if isWebhook
    then {[ "content" := content; "embeds" := VArr items; "files" := VArr [] ]}
    else {[ "content" := content; "embed" := first items; "files" := VArr [] ]}.
Proof.
  intros Hitems. unfold transformOptions. simpl.
  rewrite Normalizer.partition_filter.
  destruct (filter_all_embeds items Hitems) as [-> ->].
  by rewrite (left_id_L ∅ (∪)).
Qed.

(** C2.  For an array of embeds given as the options, a webhook target
    gets all of them, in their order, in the [embeds] option and, through
    [resolveData], as the list of wire shapes; any other target gets the
    first embed only, in the [embed] option and as the list of wire
    shapes, and no error is raised for the rest. *)
Theorem C2_webhook_all_embeds_else_first `{collab : Collaborators}
    (target : Target) (content : Value) (items : list Value) :
  Forall (λ v, instanceof v MessageEmbed = true) items →
  let options := (create target content (VArr items) VUndefined).2 in
  (if isWebhook target
   then options !! "embeds" = Some (VArr items) ∧ options !! "embed" = None
   else options !! "embed" = Some (first items) ∧ options !! "embeds" = None)
  ∧ ∃ p, resolveData target options = Ok p
         ∧ embeds p = map apiTransform (if isWebhook target then items
                                        else take 1 items).
Proof.
  intros Hitems options.
  assert (options
          = if isWebhook target
            then {[ "content" := content; "embeds" := VArr items; "files" := VArr [] ]}
            else {[ "content" := content; "embed" := first items;
                    "files" := VArr [] ]}) as Hopt.
  { unfold options, create. simpl. by apply transformOptions_embeds. }
  clearbody options.
  split; [subst options; by destruct (isWebhook target)|].
  assert (∃ c, makeContent target options = Ok c) as [c Hc].
  { rewrite makeContent_eq.
    assert (mention_part target options = Ok "") as ->
      by (subst options; by destruct (isWebhook target)).
    result_step. cbv zeta.
    assert (isSplit options = false) as ->
      by (subst options; by destruct (isWebhook target)).
    destruct (_ || _); eauto. }
  assert (embedLikes target options
          = Ok (if isWebhook target then items else take 1 items)) as Hes.
  { unfold embedLikes. subst options. destruct (isWebhook target); [done|].
    destruct Hitems as [|v items Hv _]; [done|].
    by destruct v as [| | | | | | |[] props]. }
  rewrite (resolveData_eq target options c VUndefined), Hes;
    [eexists; split; reflexivity | done |].
  subst options. by destruct (isWebhook target).
Qed.

Lemma C2_webhook_all_embeds_else_first_witness :
  let a := VObj MessageEmbed {[ "title" := VStr "a" ]} in
  let b := VObj MessageEmbed {[ "title" := VStr "b" ]} in
  let c := VObj MessageEmbed {[ "title" := VStr "c" ]} in
  (∃ p, resolveData (collab := spec_collaborators) hook
          (create hook (VStr "hi") (VArr [a; b; c]) VUndefined).2 = Ok p
        ∧ embeds p = [apiTransform_spec a; apiTransform_spec b; apiTransform_spec c])
  ∧ (∃ p, resolveData (collab := spec_collaborators) channel
            (create channel (VStr "hi") (VArr [a; b; c]) VUndefined).2 = Ok p
          ∧ embeds p = [apiTransform_spec a]).
Proof.
  intros a b c. split.
  - apply (C2_webhook_all_embeds_else_first (collab := spec_collaborators)
             hook (VStr "hi") [a; b; c]).
    repeat constructor.
  - apply (C2_webhook_all_embeds_else_first (collab := spec_collaborators)
             channel (VStr "hi") [a; b; c]).
    repeat constructor.
Defined.

(** ** The remaining fields of the payload *)

(** Whenever [resolveData] returns a payload: [tts] is the truth value of
    the option; the name and the avatar are overridden for a webhook only,
    the name falling back on the target's own; [embed] is [null] when the
    option is [null] and the first wire shape otherwise. *)
Theorem resolveData_fields `{collab : Collaborators}
    (target : Target) (options : Obj) (p : Payload) :
  resolveData target options = Ok p →
  tts p = truthy (get options "tts")
  ∧ username p
    = (if isWebhook target
       then or_else (get options "username") (target_name target)
       else VUndefined)
  ∧ avatar_url p
    = (if isWebhook target && truthy (get options "avatarURL")
       then get options "avatarURL" else VUndefined)
  ∧ embed p = (if is_null (get options "embed") then VNull else first (embeds p))
  ∧ ∃ es, embedLikes target options = Ok es ∧ embeds p = map apiTransform es.
Proof.
  unfold resolveData. intros Hp.
  destruct (makeContent target options) as [c|e]; [|done].
  cbn [mbind Result_bind] in Hp.
  destruct (if negb (is_undefined (get options "nonce")) then _ else _) as [n|e];
    [|done].
  cbn [mbind Result_bind] in Hp.
  destruct (embedLikes target options) as [es|e]; [|done].
  cbn [mbind Result_bind] in Hp.
  destruct (isWebhook target), (truthy (get options "avatarURL"));
    injection Hp as <-; simpl; eauto 10.
Qed.

Lemma resolveData_fields_witness :
  let p := {| content := Single "hello"; tts := true; nonce := VUndefined;
              embed := VNull; embeds := []; username := VStr "relay";
              avatar_url := VUndefined |} in
  resolveData (collab := spec_collaborators) hook
    {[ "content" := VStr "hello"; "embed" := VNull; "tts" := VNum 1 ]} = Ok p
  ∧ tts p = true ∧ username p = VStr "relay" ∧ avatar_url p = VUndefined
  ∧ embed p = VNull.
Proof.
  intros p.
  assert (resolveData (collab := spec_collaborators) hook
            {[ "content" := VStr "hello"; "embed" := VNull; "tts" := VNum 1 ]}
          = Ok p) as Hp by reflexivity.
  split; [exact Hp|].
  destruct (resolveData_fields (collab := spec_collaborators) hook _ p Hp)
    as (Ht & Hu & Ha & He & _).
  split; [exact Ht|]. split; [exact Hu|]. split; [exact Ha | exact He].
Defined.

End Resolver.

(* ===================================================================== *)
(** * The file resolver *)
(* ===================================================================== *)

Module Files.

Section With_collaborators.
Context `{collab : Collaborators}.

(** The loop over the embeds appends the files of each, in order. *)
Lemma fileLikes_loop (es : list Value) (embedded : list (list Value))
    (found : list Value) :
  Forall2 (λ e fs, ∃ v, get_prop e "files" = Ok v ∧ lists v fs) es embedded →
  foldl (λ acc embed,
           fileLikes ← acc;
           files ← get_prop embed "files";
           if truthy files then more ← spread files; Ok (fileLikes ++ more)
           else Ok fileLikes)
        (Ok found) es
  = Ok (found ++ concat embedded).
Proof.
  intros Hes. revert found.
  induction Hes as [|e fs es embedded (v & Hv & Hfs) _ IH]; intros found; simpl.
  - by rewrite app_nil_r.
  - rewrite Hv. result_step.
    destruct Hfs as [-> | [-> ->]]; simpl; rewrite IH; by rewrite <- ?app_assoc.
Qed.

(** A join whose promises all fulfil: the slots written so far agree with
    the values, and every promise has written its slot or is still to
    settle. *)
Lemma settle_fulfils {A} (values : list A) (schedule : list nat)
    (slots : list (option A)) :
  length slots = length values →
  (∀ i a, slots !! i = Some (Some a) → values !! i = Some a) →
  (∀ i, (i < length values)%nat → i ∈ schedule ∨ ∃ a, slots !! i = Some (Some a)) →
  (∀ i, i ∈ schedule → (i < length values)%nat) →
  settle (Ok <$> values) schedule slots = Fulfilled values.
Proof.
  revert slots.
  induction schedule as [|i schedule IH]; intros slots Hlen Hagree Hall Hin; simpl.
  - assert (slots = Some <$> values) as ->.
    { apply list_eq. intros i. rewrite list_lookup_fmap.
      destruct (decide (i < length values)%nat) as [Hi|Hi].
      - destruct (Hall i Hi) as [Hs|[a Ha]]; [by apply elem_of_nil in Hs|].
        by rewrite Ha, (Hagree _ _ Ha).
      - rewrite !(proj2 (lookup_ge_None _ _)); [done| lia | lia]. }
    by rewrite mapM_fmap_Some.
  - assert (i < length values)%nat as Hi by (apply Hin; left).
    destruct (lookup_lt_is_Some_2 _ _ Hi) as [a Ha].
    rewrite list_lookup_fmap, Ha. simpl.
    apply IH.
    + by rewrite length_insert.
    + intros j b. destruct (decide (i = j)) as [<-|Hij].
      * rewrite list_lookup_insert_eq by lia. congruence.
      * rewrite list_lookup_insert_ne by done. apply Hagree.
    + intros j Hj. destruct (decide (i = j)) as [<-|Hij].
      * right. exists a. apply list_lookup_insert_eq. lia.
      * rewrite list_lookup_insert_ne by done.
        destruct (Hall j Hj) as [Hs|?]; [|by right].
        apply elem_of_cons in Hs as [->|?]; [done|by left].
    + intros j Hj. apply Hin. by right.
Qed.

(** [Promise.all] of promises that all fulfil, whatever the order in which
    they settle: the values, in the order of the promises. *)
Lemma Promise_all_fulfils {A} (values : list A) (schedule : list nat) :
  schedule ≡ₚ seq 0 (length values) →
  Promise_all schedule (Ok <$> values) = Fulfilled values.
Proof.
  intros Hperm. unfold Promise_all. rewrite length_fmap.
  apply settle_fulfils.
  - by rewrite length_replicate.
  - intros i a Hi. apply lookup_replicate in Hi as [? _]. done.
  - intros i Hi. left. rewrite Hperm. apply elem_of_seq. lia.
  - intros i Hi. rewrite Hperm in Hi. apply elem_of_seq in Hi. lia.
Qed.

End With_collaborators.

(** C9.  [resolveFiles] collects the members of the [files] option first
    and then, for each embed in the order of the payload, the members of
    that embed's [files].  When every one of them resolves, the promise it
    returns is fulfilled with their descriptors in that same order, in
    whatever order the single resolutions settle. *)
Theorem C9_files_in_discovery_order `{collab : Collaborators}
    (target : Target) (options : Obj) (files es : list Value)
    (embedded : list (list Value)) (descriptors : list FileDescriptor)
    (schedule : list nat) :
  lists (get options "files") files →
  embedLikes target options = Ok es →
  Forall2 (λ e fs, ∃ v, get_prop e "files" = Ok v ∧ lists v fs) es embedded →
  Forall2 (λ f d, resolveFile f = Ok d) (files ++ concat embedded) descriptors →
  schedule ≡ₚ seq 0 (length descriptors) →
  fileLikes target options = Ok (files ++ concat embedded)
  ∧ resolveFiles schedule target options = Ok (Fulfilled descriptors).
Proof.
  intros Hfiles Hes Hembedded Hresolve Hperm.
  assert (fileLikes target options = Ok (files ++ concat embedded)) as Hfound.
  { unfold fileLikes. rewrite Hes. result_step.
    destruct Hfiles as [-> | [-> ->]]; simpl;
      by rewrite (fileLikes_loop es embedded). }
  split; [done|].
  unfold resolveFiles. rewrite Hfound. result_step. f_equal.
  assert (map resolveFile (files ++ concat embedded) = Ok <$> descriptors) as ->.
  { clear -Hresolve. induction Hresolve as [|f d fs ds Hf _ IH]; [done|].
    simpl. by rewrite Hf, IH. }
  by apply Promise_all_fulfils.
Qed.

Lemma C9_files_in_discovery_order_witness :
  let picture := VObj MessageEmbed {[ "files" := VArr [VStr "img/c.png"] ]} in
  let options : Obj :=
    {[ "files" := VArr [VStr "a.txt";
                        VObj Plain {[ "attachment" := VStr "tmp/x"; "name" := VStr "b.txt" ]}];
       "embeds" := VArr [picture] ]} in
  resolveFiles (collab := spec_collaborators) [1; 0; 2]%nat hook options
  = Ok (Fulfilled
          [ {| attachment := VStr "a.txt"; name := VStr "a.txt";
               file := VObj Buffer {[ "from" := VStr "a.txt" ]} |};
            {| attachment := VStr "tmp/x"; name := VStr "b.txt";
               file := VObj Buffer {[ "from" := VStr "tmp/x" ]} |};
            {| attachment := VStr "img/c.png"; name := VStr "c.png";
               file := VObj Buffer {[ "from" := VStr "img/c.png" ]} |} ]).
Proof.
  intros picture options.
  apply (C9_files_in_discovery_order (collab := spec_collaborators) hook options
           [VStr "a.txt";
            VObj Plain {[ "attachment" := VStr "tmp/x"; "name" := VStr "b.txt" ]}]
           [picture] [[VStr "img/c.png"]]).
  - by left.
  - reflexivity.
  - repeat constructor. exists (VArr [VStr "img/c.png"]). split; [reflexivity | by left].
  - repeat constructor.
  - simpl. apply perm_swap.
Defined.

(** ** Names and failures *)

(** The display name [resolveFile] gives: for a string, the base name of
    the string; for an object that wraps its attachment, the object's own
    name when it has one; for a buffer without a path, [file.jpg]. *)
Theorem resolveFile_display_name `{collab : Collaborators} :
  (∀ path,
     resolveFile (VStr path)
     = name ← basename (VStr path);
       file ← DataResolver_resolveFile (VStr path);
       Ok {| attachment := VStr path; name := VStr name; file := file |})
  ∧ (∀ cls props,
       cls ≠ Buffer →
       typeof (get props "pipe") ≠ "function" →
       truthy (get props "name") = true →
       resolveFile (VObj cls props)
       = file ← DataResolver_resolveFile (get props "attachment");
         Ok {| attachment := get props "attachment"; name := get props "name";
               file := file |})
  ∧ (∀ props,
       truthy (get props "path") = false →
       resolveFile (VObj Buffer props)
       = file ← DataResolver_resolveFile (VObj Buffer props);
         Ok {| attachment := VObj Buffer props; name := VStr "file.jpg";
               file := file |}).
Proof.
  split; [|split].
  - intros path. unfold resolveFile, findName. simpl.
    by destruct (basename (VStr path)).
  - intros cls props Hcls Hpipe Hname. unfold resolveFile. simpl.
    rewrite (bool_decide_false (cls = Buffer)) by done.
    rewrite (bool_decide_false (typeof _ = "function")) by done.
    simpl. by rewrite Hname.
  - intros props Hpath. unfold resolveFile, findName. simpl. by rewrite Hpath.
Qed.

(** [Promise.all] fails fast: when promises settle without a rejection
    and then one rejects, the join is rejected with that error, whatever
    settles later. *)
Theorem Promise_all_rejects {A} (outcomes : list (Result A))
    (settled later : list nat) (i : nat) (e : Error) :
  Forall (λ j, ∀ e', outcomes !! j ≠ Some (Err e')) settled →
  outcomes !! i = Some (Err e) →
  Promise_all (settled ++ i :: later) outcomes = Rejected e.
Proof.
  intros Hsettled Hi. unfold Promise_all.
  generalize (replicate (length outcomes) (@None A)).
  induction Hsettled as [|j settled Hj _ IH]; intros slots; simpl.
  - by rewrite Hi.
  - destruct (outcomes !! j) as [[a|e']|]; [apply IH | by destruct (Hj e') | apply IH].
Qed.

Lemma Promise_all_rejects_witness :
  Promise_all [2; 1; 0]%nat [Ok 10; Err FileResolutionError; Ok 30]
  = Rejected FileResolutionError.
Proof.
  apply (Promise_all_rejects [Ok 10; Err FileResolutionError; Ok 30]
           [2%nat] [0%nat] 1%nat FileResolutionError).
  - repeat constructor. intros e'. discriminate.
  - reflexivity.
Defined.

End Files.

(* ===================================================================== *)
(** * Further laws of the normalisation *)
(* ===================================================================== *)

Module Normalizer_laws.

(** The sources of [Object.assign] that add nothing. *)
Lemma own_props_default (extra : Value) :
  own_props (if is_undefined extra then VObj Plain ∅ else extra) = own_props extra.
Proof. by destruct extra. Qed.

Lemma transformOptions_without_extra (content options extra : Value) (isWebhook : bool) :
  transformOptions content options extra isWebhook
  = own_props extra ∪ transformOptions content options VUndefined isWebhook.
Proof.
  unfold transformOptions. cbn [is_undefined Object_assign foldl]. cbv zeta.
  rewrite !own_props_default.
  repeat case_match; simpl; by rewrite ?(left_id_L ∅ (∪)).
Qed.

(** [extra] is merged last: the options are those made without [extra],
    with every own property of [extra] written over them.  So a key of
    [extra] always has the value [extra] gives it, and every other key
    has the value it has without [extra]. *)
Theorem transformOptions_extra_merged_last (content options extra : Value)
    (isWebhook : bool) :
  transformOptions content options extra isWebhook
  = Object_assign (transformOptions content options VUndefined isWebhook) [extra]
  ∧ (∀ k v, own_props extra !! k = Some v →
       transformOptions content options extra isWebhook !! k = Some v)
  ∧ (∀ k, own_props extra !! k = None →
       transformOptions content options extra isWebhook !! k
       = transformOptions content options VUndefined isWebhook !! k).
Proof.
  rewrite transformOptions_without_extra. split; [done|]. split.
  - intros k v Hk. by apply lookup_union_Some_l.
  - intros k Hk. by apply lookup_union_r.
Qed.

(** An options object given with the content: the result is the content,
    then the own properties of the options, then those of [extra], each
    written over the former.  So a [content] property of the options
    replaces the content given by position. *)
Theorem transformOptions_options_object (content : Value) (cls : Class) (props : Obj)
    (extra : Value) (isWebhook : bool) :
  cls ≠ MessageEmbed →
  cls ≠ MessageAttachment →
  (∀ items, content = VArr items → partitionMessageAdditions items = ([], [])) →
  transformOptions content (VObj cls props) extra isWebhook
  = own_props extra ∪ (props ∪ {[ "content" := content ]})
  ∧ (∀ c, own_props extra !! "content" = None →
       props !! "content" = Some c →
       transformOptions content (VObj cls props) extra isWebhook !! "content" = Some c)
  ∧ (own_props extra !! "content" = None →
     props !! "content" = None →
     transformOptions content (VObj cls props) extra isWebhook !! "content"
     = Some content).
Proof.
  intros He Ha Hc.
  assert (transformOptions content (VObj cls props) extra isWebhook
          = own_props extra ∪ (props ∪ {[ "content" := content ]})) as ->.
  { rewrite transformOptions_without_extra. f_equal.
    unfold transformOptions. simpl.
    rewrite !bool_decide_false by done.
    destruct content as [| | | | | |items|]; simpl;
      rewrite ?(Hc _ eq_refl); simpl; by rewrite (left_id_L ∅ (∪)). }
  split; [done|]. split.
  - intros c Hx Hp. rewrite lookup_union_r by done.
    by apply lookup_union_Some_l.
  - intros Hx Hp. rewrite lookup_union_r by done.
    rewrite lookup_union_r by done. apply lookup_singleton_eq.
Qed.

Lemma transformOptions_options_object_witness :
  transformOptions (VStr "hi")
    (VObj Plain {[ "content" := VStr "bye"; "tts" := VBool true ]}) VUndefined false
  = {[ "content" := VStr "bye"; "tts" := VBool true ]}.
Proof.
  destruct (transformOptions_options_object (VStr "hi") Plain
              {[ "content" := VStr "bye"; "tts" := VBool true ]} VUndefined false)
    as [-> _]; [discriminate | discriminate | discriminate |].
  reflexivity.
Defined.

(** An array with embeds or attachments given as the content: the options
    given beside it, when they are none of an embed, an attachment and an
    array, are left out of the result altogether; only what [extra] holds
    is added to the embeds and the files. *)
Theorem transformOptions_additions_as_content (items : list Value)
    (options extra : Value) (isWebhook : bool) (embeds files : list Value) :
  is_array options = false →
  instanceof options MessageEmbed = false →
  instanceof options MessageAttachment = false →
  partitionMessageAdditions items = (embeds, files) →
  embeds ≠ [] ∨ files ≠ [] →
  transformOptions (VArr items) options extra isWebhook
  = own_props extra
    ∪ (if isWebhook then {[ "embeds" := VArr embeds; "files" := VArr files ]}
       else {[ "embed" := first embeds; "files" := VArr files ]})
  ∧ ∀ k, k ≠ "embed" → k ≠ "embeds" → k ≠ "files" →
      own_props extra !! k = None →
      transformOptions (VArr items) options extra isWebhook !! k = None.
Proof.
  intros Harr Hemb Hatt Hp Hne.
  assert (transformOptions (VArr items) options extra isWebhook
          = own_props extra
            ∪ (if isWebhook then {[ "embeds" := VArr embeds; "files" := VArr files ]}
               else {[ "embed" := first embeds; "files" := VArr files ]})) as ->.
  { rewrite transformOptions_without_extra. f_equal.
    assert (negb (bool_decide (length embeds = 0%nat))
            || negb (bool_decide (length files = 0%nat)) = true) as Hlen.
    { destruct Hne as [H|H]; [destruct embeds | destruct files]; try done.
      by rewrite orb_true_r. }
    unfold transformOptions. cbn [is_array negb]. rewrite andb_false_r.
    destruct (truthy options).
    - rewrite Hemb, Hatt.
      destruct options; try done; rewrite Hp, Hlen; simpl;
        by rewrite (left_id_L ∅ (∪)).
    - simpl. rewrite Hp, Hlen. simpl. by rewrite (left_id_L ∅ (∪)). }
  split; [done|]. intros k H1 H2 H3 Hx.
  rewrite lookup_union_r by done.
  destruct isWebhook;
    by rewrite lookup_insert_ne, lookup_singleton_ne by done.
Qed.

Lemma transformOptions_additions_as_content_witness :
  transformOptions (VArr [VObj MessageEmbed {[ "title" := VStr "a" ]}])
    (VObj Plain {[ "tts" := VBool true; "nonce" := VStr "5" ]}) VUndefined false
  = {[ "embed" := VObj MessageEmbed {[ "title" := VStr "a" ]}; "files" := VArr [] ]}.
Proof.
  destruct (transformOptions_additions_as_content
              [VObj MessageEmbed {[ "title" := VStr "a" ]}]
              (VObj Plain {[ "tts" := VBool true; "nonce" := VStr "5" ]})
              VUndefined false [VObj MessageEmbed {[ "title" := VStr "a" ]}] [])
    as [-> _];
    [reflexivity | reflexivity | reflexivity | reflexivity | by left |].
  reflexivity.
Defined.

(** Laws of the partition: each result holds only items of its kind, the
    partition of a concatenation is the concatenation of the partitions,
    and partitioning the embeds followed by the attachments gives the
    same pair again. *)
Theorem partitionMessageAdditions_laws :
  (∀ items,
     Forall (λ v, instanceof v MessageEmbed = true) (partitionMessageAdditions items).1
     ∧ Forall (λ v, instanceof v MessageAttachment = true)
         (partitionMessageAdditions items).2
     ∧ (length (partitionMessageAdditions items).1
        + length (partitionMessageAdditions items).2 ≤ length items)%nat)
  ∧ (∀ xs ys,
       partitionMessageAdditions (xs ++ ys)
       = ((partitionMessageAdditions xs).1 ++ (partitionMessageAdditions ys).1,
          (partitionMessageAdditions xs).2 ++ (partitionMessageAdditions ys).2))
  ∧ (∀ items,
       partitionMessageAdditions
         ((partitionMessageAdditions items).1 ++ (partitionMessageAdditions items).2)
       = partitionMessageAdditions items).
Proof.
  assert (∀ xs ys,
       partitionMessageAdditions (xs ++ ys)
       = ((partitionMessageAdditions xs).1 ++ (partitionMessageAdditions ys).1,
          (partitionMessageAdditions xs).2 ++ (partitionMessageAdditions ys).2))
    as Happ.
  { intros xs ys. rewrite !Normalizer.partition_filter. simpl.
    by rewrite !filter_app. }
  assert (∀ items,
     Forall (λ v, instanceof v MessageEmbed = true) (partitionMessageAdditions items).1
     ∧ Forall (λ v, instanceof v MessageAttachment = true)
         (partitionMessageAdditions items).2) as Hkinds.
  { intros items. rewrite Normalizer.partition_filter. simpl.
    split; apply Forall_forall; intros v [Hv _]%list_elem_of_filter;
      by apply Is_true_true. }
  split; [|split; [done|]].
  - intros items. destruct (Hkinds items) as [H1 H2]. split; [done|]. split; [done|].
    rewrite Normalizer.partition_filter. simpl. clear.
    induction items as [|v items IH]; [done|].
    destruct v as [| | | | | | |[] props];
      rewrite ?filter_cons_True, ?filter_cons_False by (simpl; auto);
      simpl; lia.
  - intros items. destruct (Hkinds items) as [He Ha].
    rewrite Happ.
    destruct (Resolver.filter_all_embeds _ He) as [E1 E2].
    rewrite (Normalizer.partition_filter (partitionMessageAdditions items).1).
    rewrite E1, E2. simpl.
    rewrite (Normalizer.partition_filter (partitionMessageAdditions items).2). simpl.
    assert (∀ l, Forall (λ v, instanceof v MessageAttachment = true) l →
                 filter (λ v, instanceof v MessageEmbed) l = []
                 ∧ filter (λ v, instanceof v MessageAttachment) l = l) as Hatt.
    { clear. induction 1 as [|v l Hv _ [IH1 IH2]]; [done|].
      destruct v as [| | | | | | |[] props]; try done.
      rewrite filter_cons_False, filter_cons_True by (simpl; auto).
      by rewrite IH1, IH2. }
    destruct (Hatt _ Ha) as [-> ->].
    rewrite app_nil_r. by destruct (partitionMessageAdditions items).
Qed.

End Normalizer_laws.

(* ===================================================================== *)
(** * The outcomes of the join and of the file resolution *)
(* ===================================================================== *)

Module Outcomes.

(** What a join has become once its schedule is through, given slots that
    hold only values their promises have fulfilled with. *)
Lemma settle_sound {A} (outcomes : list (Result A)) (schedule : list nat)
    (slots : list (option A)) :
  length slots = length outcomes →
  (∀ i a, slots !! i = Some (Some a) → outcomes !! i = Some (Ok a)) →
  match settle outcomes schedule slots with
  | Fulfilled values =>
      outcomes = Ok <$> values ∧ ∀ i, slots !! i = Some None → i ∈ schedule
  | Rejected e => ∃ i, i ∈ schedule ∧ outcomes !! i = Some (Err e)
  | Pending => ∃ i, slots !! i = Some None ∧ i ∉ schedule
  end.
Proof.
  revert slots.
  induction schedule as [|i schedule IH]; intros slots Hlen Hagree; simpl.
  - destruct (mapM id slots) as [values|] eqn:Hm.
    + apply mapM_Some in Hm. split.
      * apply list_eq. intros i. rewrite list_lookup_fmap.
        destruct (values !! i) as [a|] eqn:Hv; simpl.
        -- destruct (Forall2_lookup_r _ _ _ _ _ Hm Hv) as (x & Hx & Hid).
           simpl in Hid. subst x. by apply Hagree.
        -- apply lookup_ge_None. apply lookup_ge_None in Hv.
           apply Forall2_length in Hm. lia.
      * intros i Hi.
        destruct (Forall2_lookup_l _ _ _ _ _ Hm Hi) as (y & _ & Hid). done.
    + apply mapM_None, Exists_exists in Hm as (x & Hx & Hid).
      simpl in Hid. subst x.
      apply list_elem_of_lookup in Hx as [i Hi].
      exists i. split; [done|]. apply not_elem_of_nil.
  - destruct (outcomes !! i) as [[a|e]|] eqn:Hi.
    + specialize (IH (<[i := Some a]> slots)).
      destruct (settle outcomes schedule (<[i := Some a]> slots)) as [values|e|].
      * destruct IH as [Heq Hcov].
        { by rewrite length_insert. }
        { intros j b [(<- & [= <-] & _)|[_ Hj]]%list_lookup_insert_Some; auto. }
        split; [done|]. intros j Hj.
        destruct (decide (j = i)) as [->|Hji]; [left|right].
        apply Hcov. by rewrite list_lookup_insert_ne.
      * destruct IH as (j & Hj & He).
        { by rewrite length_insert. }
        { intros j b [(<- & [= <-] & _)|[_ Hj]]%list_lookup_insert_Some; auto. }
        exists j. split; [by right | done].
      * destruct IH as (j & Hj & Hnot).
        { by rewrite length_insert. }
        { intros j b [(<- & [= <-] & _)|[_ Hj]]%list_lookup_insert_Some; auto. }
        apply list_lookup_insert_Some in Hj as [(_ & [=] & _)|[Hij Hj]].
        exists j. split; [done|].
        intros [->|?]%elem_of_cons; done.
    + exists i. split; [left | done].
    + specialize (IH slots Hlen Hagree).
      destruct (settle outcomes schedule slots) as [values|e|].
      * destruct IH as [Heq Hcov]. split; [done|]. intros j Hj. right. by apply Hcov.
      * destruct IH as (j & Hj & He). exists j. split; [by right | done].
      * destruct IH as (j & Hj & Hnot). exists j. split; [done|].
        intros [->|?]%elem_of_cons; [|done].
        apply lookup_ge_None in Hi. apply lookup_lt_Some in Hj. lia.
Qed.

Lemma Promise_all_sound {A} (schedule : list nat) (outcomes : list (Result A)) :
  match Promise_all schedule outcomes with
  | Fulfilled values =>
      outcomes = Ok <$> values ∧ ∀ i, (i < length outcomes)%nat → i ∈ schedule
  | Rejected e => ∃ i, i ∈ schedule ∧ outcomes !! i = Some (Err e)
  | Pending => ∃ i, (i < length outcomes)%nat ∧ i ∉ schedule
  end.
Proof.
  unfold Promise_all.
  pose proof (settle_sound outcomes schedule (replicate (length outcomes) None)) as H.
  destruct (settle outcomes schedule (replicate (length outcomes) None))
    as [values|e|].
  - destruct H as [Heq Hcov].
    { by rewrite length_replicate. }
    { by intros i a [? _]%lookup_replicate. }
    split; [done|]. intros i Hi. apply Hcov. by apply lookup_replicate_2.
  - apply H; [by rewrite length_replicate|].
    by intros i a [? _]%lookup_replicate.
  - destruct H as (i & Hi & Hnot).
    { by rewrite length_replicate. }
    { by intros i a [? _]%lookup_replicate. }
    apply lookup_replicate in Hi as [_ Hi]. by exists i.
Qed.

(** The join of [resolveFiles], for every list of promises and every
    order of completion.  It is fulfilled with [values] exactly when every
    promise has settled and has fulfilled, with the values in the order of
    the promises.  It is rejected only with the error of a promise that
    has settled.  It is pending only when a promise never settles. *)
Theorem Promise_all_outcome {A} (schedule : list nat) (outcomes : list (Result A)) :
  (∀ values,
     Promise_all schedule outcomes = Fulfilled values
     ↔ outcomes = Ok <$> values ∧ ∀ i, (i < length outcomes)%nat → i ∈ schedule)
  ∧ (∀ e, Promise_all schedule outcomes = Rejected e →
       ∃ i, i ∈ schedule ∧ outcomes !! i = Some (Err e))
  ∧ (Promise_all schedule outcomes = Pending →
       ∃ i, (i < length outcomes)%nat ∧ i ∉ schedule).
Proof.
  pose proof (Promise_all_sound schedule outcomes) as H.
  split; [|split].
  - intros values. split.
    + intros Hf. by rewrite Hf in H.
    + intros [Heq Hcov].
      destruct (Promise_all schedule outcomes) as [values'|e|].
      * destruct H as [Heq' _]. f_equal.
        rewrite Heq in Heq'.
        apply (list_fmap_eq_inj Ok) in Heq'; [done|]. by intros x y [=].
      * destruct H as (i & _ & Hi). rewrite Heq, list_lookup_fmap in Hi.
        by destruct (values !! i).
      * destruct H as (i & Hi & Hnot). destruct Hnot. by apply Hcov.
  - intros e He. by rewrite He in H.
  - intros Hp. by rewrite Hp in H.
Qed.

Section With_collaborators.
Context `{collab : Collaborators}.

(** Building the list of files fails only with a [TypeError]. *)
Lemma fileLikes_error (target : Target) (options : Obj) (e : Error) :
  fileLikes target options = Err e → e = TypeError.
Proof.
  unfold fileLikes.
  destruct (embedLikes target options) as [es|e'] eqn:Hes.
  2: { result_step. intros [= <-]. by apply Resolver.embedLikes_error in Hes. }
  result_step.
  assert (∀ (acc : Result (list Value)),
            (∀ e, acc = Err e → e = TypeError) →
            foldl (λ acc embed,
                     fileLikes ← acc;
                     files ← get_prop embed "files";
                     if truthy files then more ← spread files; Ok (fileLikes ++ more)
                     else Ok fileLikes) acc es = Err e → e = TypeError) as Hloop.
  { clear. induction es as [|x es IH]; intros acc Hacc; simpl; [apply Hacc|].
    apply IH. intros e'.
    destruct acc as [found|e'']; result_step; [|apply Hacc].
    destruct x; simpl; try congruence.
    case_match; [|congruence].
    destruct (spread _) as [more|e''] eqn:Hs; result_step; [congruence|].
    intros [= <-]. by apply Resolver.spread_error in Hs. }
  destruct (truthy (get options "files")).
  - destruct (spread (get options "files")) as [files|e'] eqn:Hs; result_step.
    + apply Hloop. congruence.
    + intros [= <-]. by apply Resolver.spread_error in Hs.
  - apply Hloop. congruence.
Qed.

End With_collaborators.

(** [resolveFiles] throws only a [TypeError] (a [files] property that
    cannot be spread, or a null embed).  Otherwise it returns a promise
    over the files found: fulfilled with one descriptor per file, each the
    resolution of its file, in the order of the files; rejected with the
    error of one of the files; pending only if a resolution never
    settles. *)
Theorem resolveFiles_outcome `{collab : Collaborators} (schedule : list nat)
    (target : Target) (options : Obj) :
  match resolveFiles schedule target options with
  | Err e => e = TypeError ∧ fileLikes target options = Err TypeError
  | Ok promise =>
      ∃ found, fileLikes target options = Ok found ∧
        match promise with
        | Fulfilled descriptors =>
            Forall2 (λ f d, resolveFile f = Ok d) found descriptors
        | Rejected e => ∃ f, f ∈ found ∧ resolveFile f = Err e
        | Pending => ∃ i, (i < length found)%nat ∧ i ∉ schedule
        end
  end.
Proof.
  unfold resolveFiles.
  destruct (fileLikes target options) as [found|e] eqn:Hfound; result_step.
  2: { apply fileLikes_error in Hfound as ->. done. }
  exists found. split; [done|].
  pose proof (Promise_all_sound schedule (map resolveFile found)) as H.
  destruct (Promise_all schedule (map resolveFile found)) as [descriptors|e|].
  - destruct H as [Heq _]. clear -Heq.
    revert descriptors Heq.
    induction found as [|f found IH]; intros [|d descriptors] Heq; try done.
    injection Heq as Hf Heq. constructor; [done | by apply IH].
  - destruct H as (i & _ & Hi).
    change (map resolveFile found) with (resolveFile <$> found) in Hi.
    rewrite list_lookup_fmap in Hi.
    destruct (found !! i) as [f|] eqn:Hf; [|done].
    exists f. split; [by eapply list_elem_of_lookup_2 | by injection Hi].
  - destruct H as (i & Hi & Hnot). rewrite length_map in Hi. by exists i.
Qed.

End Outcomes.

(* ===================================================================== *)
(** * The outcome of resolving one file *)
(* ===================================================================== *)

Module Descriptors.

(** A file that is its own attachment: a string, a buffer or a stream. *)
Definition own_attachment (fileLike : Value) : Prop :=
  typeof fileLike = "string"
  ∨ instanceof fileLike Buffer = true
  ∨ ∃ pipe, get_prop fileLike "pipe" = Ok pipe ∧ typeof pipe = "function".

(** The promise [resolveFile] returns.  When it fulfils, the resource of
    the descriptor is what the data resolver made of the descriptor's
    attachment; the attachment is the file itself for a string, a buffer
    or a stream and the [attachment] property of the file otherwise; the
    name is a base name, the placeholder [file.jpg], or the truthy [name]
    property of a file that wraps its attachment.  When it rejects, the
    error is a [TypeError] for a file, or a wrapped attachment, that is
    [null] or [undefined], or else the error of the base name or of the
    data resolver. *)
Theorem resolveFile_outcome `{collab : Collaborators} (fileLike : Value) :
  match resolveFile fileLike with
  | Ok d =>
      DataResolver_resolveFile (attachment d) = Ok (file d)
      ∧ (own_attachment fileLike ∧ attachment d = fileLike
         ∨ ¬ own_attachment fileLike
           ∧ get_prop fileLike "attachment" = Ok (attachment d))
      ∧ (name d = VStr "file.jpg"
         ∨ (∃ path s, basename path = Ok s ∧ name d = VStr s)
         ∨ (¬ own_attachment fileLike
            ∧ get_prop fileLike "name" = Ok (name d) ∧ truthy (name d) = true))
  | Err e =>
      (e = TypeError
       ∧ (is_nullish fileLike = true
          ∨ ∃ a, get_prop fileLike "attachment" = Ok a ∧ is_nullish a = true))
      ∨ (∃ path, basename path = Err e)
      ∨ (∃ a, DataResolver_resolveFile a = Err e)
  end.
Proof.
  assert (∀ thing,
            match findName thing with
            | Ok n => n = VStr "file.jpg" ∨ ∃ path s, basename path = Ok s ∧ n = VStr s
            | Err e => (e = TypeError ∧ is_nullish thing = true)
                       ∨ ∃ path, basename path = Err e
            end) as Hname.
  { intros thing. unfold findName. case_bool_decide.
    - destruct (basename thing) eqn:Hb; result_step; eauto 6.
    - destruct (get_prop thing "path") as [path|e] eqn:Hp; result_step.
      + destruct (truthy path); [|auto].
        destruct (basename path) eqn:Hb; result_step; eauto 6.
      + left. destruct thing; simplify_eq/=; auto. }
  unfold resolveFile.
  destruct (bool_decide (typeof fileLike = "string")) eqn:Hs.
  { apply bool_decide_eq_true in Hs. result_step.
    specialize (Hname fileLike).
    destruct (findName fileLike) as [n|e]; result_step.
    - destruct (DataResolver_resolveFile fileLike) as [r|e] eqn:Hr; result_step.
      + simpl. split; [done|]. split; [left; split; [by left | done]|].
        destruct Hname as [->|?]; auto.
      + right. right. eauto.
    - destruct Hname as [[-> Hn]|?]; [|auto]. by destruct fileLike. }
  apply bool_decide_eq_false in Hs.
  destruct (instanceof fileLike Buffer) eqn:Hb.
  { result_step. specialize (Hname fileLike).
    destruct (findName fileLike) as [n|e]; result_step.
    - destruct (DataResolver_resolveFile fileLike) as [r|e] eqn:Hr; result_step.
      + simpl. split; [done|]. split; [left; split; [right; by left | done]|].
        destruct Hname as [->|?]; auto.
      + right. right. eauto.
    - destruct Hname as [[-> Hn]|?]; [|auto]. by destruct fileLike. }
  destruct (get_prop fileLike "pipe") as [pipe|e] eqn:Hp; result_step.
  2: { left. destruct fileLike; simplify_eq/=; auto. }
  case_bool_decide as Hf; result_step.
  { specialize (Hname fileLike).
    destruct (findName fileLike) as [n|e]; result_step.
    - destruct (DataResolver_resolveFile fileLike) as [r|e] eqn:Hr; result_step.
      + simpl. split; [done|].
        split; [left; split; [right; right; eauto | done]|].
        destruct Hname as [->|?]; auto.
      + right. right. eauto.
    - destruct Hname as [[-> Hn]|?]; [|auto]. by destruct fileLike. }
  assert (¬ own_attachment fileLike) as Hown.
  { intros [?|[?|(pipe' & Hp' & ?)]]; [done | congruence | congruence]. }
  destruct (get_prop fileLike "attachment") as [a|e] eqn:Ha; result_step.
  2: { destruct fileLike; simplify_eq/=. }
  destruct (get_prop fileLike "name") as [n|e] eqn:Hn; result_step.
  2: { destruct fileLike; simplify_eq/=. }
  destruct (truthy n) eqn:Ht; result_step.
  - destruct (DataResolver_resolveFile a) as [r|e] eqn:Hr; result_step.
    + simpl. split; [done|]. split; [right; by split|]. right. right. by split.
    + right. right. eauto.
  - specialize (Hname a).
    destruct (findName a) as [n'|e]; result_step.
    + destruct (DataResolver_resolveFile a) as [r|e] eqn:Hr; result_step.
      * simpl. split; [done|]. split; [right; by split|].
        destruct Hname as [->|?]; auto.
      * right. right. eauto.
    + destruct Hname as [[-> Hnull]|?]; [|auto]. left. split; [done|]. right. eauto.
Qed.

End Descriptors.
